(** * Chrome Profile Switcher, native messaging host

    A shallow embedding of [native-host/profile_switcher_host.py] and the
    properties of its profile listing, signal mailbox, activation
    orchestrator and dispatch loop.

    Conventions of the embedding.
    - Python values that come out of [json.loads] are terms of [json];
      numbers are integers ([JInt]), non-integer numbers are not represented.
      A [dict] is an association list in insertion order with distinct keys.
    - A Python [str] is a [string] whose characters are code points below
      256.
    - Exceptions are values of [exn]; a pure computation that may raise is
      a [res], a computation that also acts on the machine is an [M].
    - The machine ([world]) holds the signal directory, the monotonic
      clock, the actions of the other processes, the processes spawned and
      the frames written to stdout.  Time only passes in [time.sleep].
    - A file operation fails for what the machine shows (no such file, no
      such directory); permissions and exhausted resources are not part of
      the machine.  The signal directory is flat and its entries are told
      apart by their names, byte for byte; a name designates the entry of
      that name when it is one path component ([path_component]).
    - [subprocess.Popen] refuses arguments that are not [str] or hold a
      NUL character; whether the operating system then starts the process
      is given by [popen_faults].
    - [main_loop] reads decoded messages and [send_message] records the
      message it is given; the framing of both streams is modelled apart,
      by [read_message], [send_message_bytes] and [main_bytes]. *)

From Stdlib Require Import ZArith List String Ascii Bool Lia.
From Stdlib Require Import Permutation Sorted.
From Stdlib Require HexadecimalString DecimalString.
From stdpp Require Import base gmap strings list.

Open Scope string_scope.
Open Scope list_scope.
Open Scope Z_scope.

(** ** Python values *)

#[local] Set Warnings "-register-all".

Inductive json : Type :=
| JNull
| JBool (b : bool)
| JInt (z : Z)
| JStr (s : string)
| JArr (l : list json)
| JObj (d : list (string * json)).

(** Python exceptions that the host can meet.  [OSError] and the decoding
    errors carry the text that [str(e)] gives. *)
Inductive exn : Type :=
| OSError (msg : string)
| JSONDecodeError (msg : string)
| UnicodeDecodeError (msg : string)
| ValueError
| IndexError
| KeyError
| TypeError
| AttributeError
| RecursionError.

Inductive res (A : Type) : Type :=
| Ret (a : A)
| Raise (e : exn).
Arguments Ret {A} a.
Arguments Raise {A} e.

Definition res_bind {A B} (r : res A) (k : A -> res B) : res B :=
  match r with
  | Ret a => k a
  | Raise e => Raise e
  end.

Definition is_OSError (e : exn) : bool :=
  match e with OSError _ => true | _ => false end.

Definition is_JSONDecodeError (e : exn) : bool :=
  match e with JSONDecodeError _ => true | _ => false end.

(** [str(e)] for the exceptions whose text ends up in a result. *)
Definition exn_text (e : exn) : string :=
  match e with
  | OSError m | JSONDecodeError m | UnicodeDecodeError m => m
  | _ => ""
  end.

(** [d.get(k)]: the value bound to [k], if any. *)
Fixpoint dict_get (d : list (string * json)) (k : string) : option json :=
  match d with
  | [] => None
  | (k', v) :: d' => if String.eqb k' k then Some v else dict_get d' k
  end.

(** [d[k] = v]: replaces the binding in place, or appends a new one. *)
Fixpoint dict_set (d : list (string * json)) (k : string) (v : json)
  : list (string * json) :=
  match d with
  | [] => [(k, v)]
  | (k', v') :: d' =>
      if String.eqb k' k then (k', v) :: d' else (k', v') :: dict_set d' k v
  end.

(** [x.get(k, default)] on an arbitrary value: only a dict has [get]. *)
Definition py_get (x : json) (k : string) (default : json) : res json :=
  match x with
  | JObj d => Ret (match dict_get d k with Some v => v | None => default end)
  | _ => Raise AttributeError
  end.

(** Truth value of a Python object. *)
Definition py_truthy (x : json) : bool :=
  match x with
  | JNull => false
  | JBool b => b
  | JInt z => negb (z =? 0)%Z
  | JStr s => negb (String.eqb s "")
  | JArr l => match l with [] => false | _ => true end
  | JObj d => match d with [] => false | _ => true end
  end.

(** [bool] is a subclass of [int]. *)
Definition py_as_int (x : json) : option Z :=
  match x with
  | JInt z => Some z
  | JBool b => Some (if b then 1 else 0)%Z
  | _ => None
  end.

(** [a == b]. Numbers compare by value, lists pointwise, dicts as finite
    maps. *)
Fixpoint py_eq (a b : json) {struct a} : bool :=
  match a with
  | JNull => match b with JNull => true | _ => false end
  | JBool _ | JInt _ =>
      match py_as_int a, py_as_int b with
      | Some x, Some y => (x =? y)%Z
      | _, _ => false
      end
  | JStr s => match b with JStr t => String.eqb s t | _ => false end
  | JArr l =>
      match b with
      | JArr m =>
          (fix all2 (l : list json) (m : list json) {struct l} : bool :=
             match l, m with
             | [], [] => true
             | x :: l', y :: m' => py_eq x y && all2 l' m'
             | _, _ => false
             end) l m
      | _ => false
      end
  | JObj d =>
      match b with
      | JObj e =>
          Nat.eqb (List.length d) (List.length e) &&
          (fix all (d : list (string * json)) {struct d} : bool :=
             match d with
             | [] => true
             | (k, v) :: d' =>
                 match dict_get e k with
                 | Some v' => py_eq v v'
                 | None => false
                 end && all d'
             end) d
      | _ => false
      end
  end.

(** ** Highlight colour *)

(** [format(n, "02x")]: lowercase hexadecimal, sign first, zero-padded to
    two characters. *)
Definition format_02x (n : Z) : string :=
  let digits :=
    HexadecimalString.NilZero.string_of_uint (N.to_hex_uint (Z.abs_N n)) in
  if (n <? 0)%Z then "-" +:+ digits
  else if (String.length digits <? 2)%nat then "0" +:+ digits
  else digits.

Definition highlight_color_to_hex (value : json) : res json :=
  match value with
  | JNull => Ret JNull
  | _ =>
      match py_as_int value with
      | None => Raise TypeError
      | Some v =>
          let unsigned := Z.land v 4294967295 in
          let r := Z.land (Z.shiftr unsigned 16) 255 in
          let g := Z.land (Z.shiftr unsigned 8) 255 in
          let b := Z.land unsigned 255 in
          Ret (JStr ("#" +:+ format_02x r +:+ format_02x g +:+ format_02x b))
      end
  end.

(** The two lowercase hexadecimal digits of a byte, as the interface
    describes a colour component. *)
Definition hex_char (d : Z) : ascii :=
  match String.get (Z.to_nat d) "0123456789abcdef" with
  | Some c => c
  | None => "0"%char
  end.

Definition hex_byte (x : Z) : string :=
  String (hex_char (x / 16)) (String (hex_char (x mod 16)) EmptyString).

(** ** Profile ordering *)

(** Characters at which [str.split()] cuts: the code points below 256
    that [str.isspace] accepts. *)
Definition is_space (c : ascii) : bool :=
  let n := nat_of_ascii c in
  ((9 <=? n) && (n <=? 13) || (28 <=? n) && (n <=? 32)
   || (n =? 133) || (n =? 160))%nat.

(** [s.split()]: the maximal runs of non-space characters, in order.
    [tok] is the run being read, if one has started. *)
Fixpoint split_from (s : string) (tok : option string) : list string :=
  match s with
  | EmptyString => match tok with Some t => [t] | None => [] end
  | String c s' =>
      if is_space c
      then match tok with
           | Some t => t :: split_from s' None
           | None => split_from s' None
           end
      else split_from s'
             (Some (match tok with Some t => t | None => "" end
                    +:+ String c EmptyString))
  end.

Definition py_split (s : string) : list string := split_from s None.

(** [l[-1]]. *)
Definition py_last {A} (l : list A) : res A :=
  match List.rev l with
  | [] => Raise IndexError
  | x :: _ => Ret x
  end.

Definition digit_value (c : ascii) : option Z :=
  let n := nat_of_ascii c in
  if ((48 <=? n) && (n <=? 57))%nat then Some (Z.of_nat n - 48) else None.

(** The digits of an integer literal: decimal digits, single underscores
    allowed between two digits.  Returns the value and the number of
    digits read. [prev] tells whether the previous character was a
    digit. *)
Fixpoint int_digits (cs : list ascii) (acc : Z) (count : nat) (prev : bool)
  : option (Z * nat) :=
  match cs with
  | [] => if prev then Some (acc, count) else None
  | c :: cs' =>
      match digit_value c with
      | Some d => int_digits cs' (10 * acc + d) (S count) true
      | None =>
          if Ascii.eqb c "_" && prev then int_digits cs' acc count false
          else None
      end
  end.

(** Longest digit string that [int] converts (CPython's default
    [sys.get_int_max_str_digits()]). *)
Definition int_max_str_digits : nat := 4300.

(** [int(tok)] for a token without white space, which is what [split]
    yields: optional sign, then the digits. *)
Definition py_int (tok : string) : res Z :=
  let cs := list_ascii_of_string tok in
  let '(negative, body) :=
    match cs with
    | c :: cs' =>
        if Ascii.eqb c "-" then (true, cs')
        else if Ascii.eqb c "+" then (false, cs')
        else (false, cs)
    | [] => (false, cs)
    end in
  match int_digits body 0 0 false with
  | Some (n, count) =>
      if (int_max_str_digits <? count)%nat then Raise ValueError
      else Ret (if negative then - n else n)
  | None => Raise ValueError
  end.

(** The sort key; [split], [[-1]] and [int] raise nothing but
    [IndexError] and [ValueError], which the handler catches. *)
Definition profile_sort_key (dirname : string) : Z * Z :=
  if String.eqb dirname "Default" then (0, 0)
  else
    match res_bind (py_last (py_split dirname)) py_int with
    | Ret num => (1, num)
    | Raise _ => (2, 0)
    end.

(** [k1 < k2] on pairs of integers. *)
Definition key_lt (k1 k2 : Z * Z) : bool :=
  (fst k1 <? fst k2) || ((fst k1 =? fst k2) && (snd k1 <? snd k2)).

Section Sorted.
Context {A : Type} (key : A -> Z * Z).

(** [x] goes in front of the first element whose key is not smaller. *)
Fixpoint insert_by (x : A) (l : list A) : list A :=
  match l with
  | [] => [x]
  | y :: l' =>
      if key_lt (key y) (key x) then y :: insert_by x l'
      else x :: y :: l'
  end.

(** [sorted(l, key=key)]: the stable sort of [l] by [key], computed by
    insertion from the right. *)
Definition sorted (l : list A) : list A := foldr insert_by [] l.

(** [a] may stand before [b]: the key of [b] is not smaller. *)
Definition in_order (a b : A) : Prop := key_lt (key b) (key a) = false.

(** The elements whose key is [k]. *)
Definition has_key (k : Z * Z) (a : A) : bool :=
  (fst (key a) =? fst k) && (snd (key a) =? snd k).
End Sorted.

(** ** The Python runtime taken as given

    The JSON and UTF-8 codecs and [repr] belong to the interpreter, not to
    the host.  [text] is the type of decoded file contents. *)
Class Runtime : Type := {
  text : Type;
  json_dumps : json -> text;
  json_loads : text -> res json;
  encode_utf8 : text -> string;
  decode_utf8 : string -> res text;
  py_repr : json -> string;
}.

(** What is expected of the codecs on the document of a value [x]. *)
Definition round_trips `{Runtime} (x : json) : Prop :=
  decode_utf8 (encode_utf8 (json_dumps x)) = Ret (json_dumps x) /\
  json_loads (json_dumps x) = Ret x.

(** [f"{x}"]. *)
Definition py_format `{Runtime} (x : json) : string :=
  match x with
  | JNull => "None"
  | JBool true => "True"
  | JBool false => "False"
  | JInt z => DecimalString.NilZero.string_of_int (Z.to_int z)
  | JStr s => s
  | JArr _ | JObj _ => py_repr x
  end.

(** ** The machine *)

(** What another process does to the signal directory. *)
Inductive peer_event : Type :=
| PeerWatcher (profile : string)
| PeerWrite (profile content : string).

Record world : Type := World {
  clock : Z;                        (* time.monotonic(), in milliseconds *)
  oversleep : list N;               (* by how much the next sleeps run late *)
  signal_dir : bool;                (* SIGNAL_DIR exists *)
  slots : gmap string string;       (* files of SIGNAL_DIR: name -> bytes *)
  agenda : list (Z * peer_event);   (* dated actions of the other processes *)
  relayed : list (string * json);   (* frames the peers' watchers have sent *)
  popen_faults : list (option string); (* OSError of the next Popen calls *)
  spawned : list (list string);     (* argv of the processes started *)
  stdout : list json;               (* frames this process has sent *)
  threads : list json;              (* arguments of the watcher threads *)
  local_state_file : res string;    (* bytes of LOCAL_STATE, or the OSError *)
  avatars : gmap string string;     (* base64 of each readable picture *)
}.

Definition with_slots (f : gmap string string -> gmap string string)
  (w : world) : world :=
  World (clock w) (oversleep w) (signal_dir w) (f (slots w)) (agenda w)
    (relayed w) (popen_faults w) (spawned w) (stdout w) (threads w)
    (local_state_file w) (avatars w).

Definition with_signal_dir (b : bool) (w : world) : world :=
  World (clock w) (oversleep w) b (slots w) (agenda w)
    (relayed w) (popen_faults w) (spawned w) (stdout w) (threads w)
    (local_state_file w) (avatars w).

Definition with_time (now : Z) (late : list N)
  (todo : list (Z * peer_event)) (w : world) : world :=
  World now late (signal_dir w) (slots w) todo
    (relayed w) (popen_faults w) (spawned w) (stdout w) (threads w)
    (local_state_file w) (avatars w).

Definition with_relayed (r : list (string * json)) (w : world) : world :=
  World (clock w) (oversleep w) (signal_dir w) (slots w) (agenda w)
    r (popen_faults w) (spawned w) (stdout w) (threads w)
    (local_state_file w) (avatars w).

Definition with_popen (faults : list (option string))
  (procs : list (list string)) (w : world) : world :=
  World (clock w) (oversleep w) (signal_dir w) (slots w) (agenda w)
    (relayed w) faults procs (stdout w) (threads w)
    (local_state_file w) (avatars w).

Definition with_stdout (out : list json) (w : world) : world :=
  World (clock w) (oversleep w) (signal_dir w) (slots w) (agenda w)
    (relayed w) (popen_faults w) (spawned w) out (threads w)
    (local_state_file w) (avatars w).

Definition with_threads (ts : list json) (w : world) : world :=
  World (clock w) (oversleep w) (signal_dir w) (slots w) (agenda w)
    (relayed w) (popen_faults w) (spawned w) (stdout w) ts
    (local_state_file w) (avatars w).

(** Computations on the machine that may raise. *)
Definition M (A : Type) : Type := world -> res A * world.

Definition ret {A} (a : A) : M A := fun w => (Ret a, w).

Definition bind {A B} (m : M A) (k : A -> M B) : M B :=
  fun w =>
    match m w with
    | (Ret a, w') => k a w'
    | (Raise e, w') => (Raise e, w')
    end.

Definition raise {A} (e : exn) : M A := fun w => (Raise e, w).

Definition lift {A} (r : res A) : M A := fun w => (r, w).

(** [try: m except <handled> as e: h e]. *)
Definition try_except {A} (m : M A) (handled : exn -> bool)
  (h : exn -> M A) : M A :=
  fun w =>
    match m w with
    | (Ret a, w') => (Ret a, w')
    | (Raise e, w') => if handled e then h e w' else (Raise e, w')
    end.

Declare Scope M_scope.
Delimit Scope M_scope with M.
Bind Scope M_scope with M.
Notation "x <- m ;; k" := (bind m (fun x => k))
  (at level 20, m at level 99, k at level 200, only parsing) : M_scope.
Notation "m ;; k" := (bind m (fun _ => k))
  (at level 100, k at level 200, only parsing, right associativity) : M_scope.
Open Scope M_scope.

Definition CHROME_BIN : string :=
  "/Applications/Google Chrome.app/Contents/MacOS/Google Chrome".

Definition double_quote : string := String "034"%char EmptyString.

Fixpoint has_char (c : ascii) (s : string) : bool :=
  match s with
  | EmptyString => false
  | String x s' => Ascii.eqb x c || has_char c s'
  end.

(** Names that are one component of a path, so that joining one to
    [SIGNAL_DIR] designates a direct entry of the directory. *)
Definition path_component (name : string) : bool :=
  negb (String.eqb name "") && negb (String.eqb name ".")
  && negb (String.eqb name "..")
  && negb (has_char "/" name) && negb (has_char "000" name).

Section Host.
Context `{Runtime}.

(** *** Files of the signal directory *)

(** [SIGNAL_DIR / profile_dir]: only a [str] can be joined to a path.
    A file of the directory is designated by its name, which is what the
    path designates for a name of one path component ([path_component]).
    Any other name designates the directory itself, an entry under
    another name or a file elsewhere; the properties that depend on the
    file a name designates are stated for path components. *)
Definition signal_path (profile_dir : json) : M string :=
  match profile_dir with
  | JStr name => ret name
  | _ => raise TypeError
  end.

(** [SIGNAL_DIR.mkdir(exist_ok=True)]. *)
Definition mkdir_exist_ok : M unit :=
  fun w => (Ret tt, with_signal_dir true w).

Definition path_exists (name : string) : M bool :=
  fun w =>
    (Ret (match slots w !! name with Some _ => true | None => false end), w).

Definition read_text (name : string) : M text :=
  fun w =>
    match slots w !! name with
    | Some content => (decode_utf8 content, w)
    | None => (Raise (OSError "[Errno 2] No such file or directory"), w)
    end.

Definition write_text (name : string) (payload : text) : M unit :=
  fun w =>
    if signal_dir w
    then (Ret tt, with_slots (insert name (encode_utf8 payload)) w)
    else (Raise (OSError "[Errno 2] No such file or directory"), w).

Definition unlink (name : string) : M unit :=
  fun w =>
    match slots w !! name with
    | Some _ => (Ret tt, with_slots (delete name) w)
    | None => (Raise (OSError "[Errno 2] No such file or directory"), w)
    end.

(** *** Signal mailbox *)

(** [data or {}] *)
Definition data_or_empty (data : json) : json :=
  if py_truthy data then data else JObj [].

Definition write_signal (profile_dir : json) (data : json) : M unit :=
  mkdir_exist_ok ;;
  signal_file <- signal_path profile_dir ;;
  let payload := json_dumps (data_or_empty data) in
  write_text signal_file payload.

(** Returns the parsed data, or [JNull] for Python's [None]. *)
Definition read_signal (profile_dir : json) : M json :=
  signal_file <- signal_path profile_dir ;;
  present <- path_exists signal_file ;;
  if negb present then ret JNull
  else
    try_except
      (content <- read_text signal_file ;;
       data <- lift (json_loads content) ;;
       unlink signal_file ;;
       ret data)
      (fun e => is_OSError e || is_JSONDecodeError e)
      (fun _ =>
         try_except (unlink signal_file) is_OSError (fun _ => ret tt) ;;
         ret JNull).

(** *** Output and processes *)

Definition send_message (msg : json) : M unit :=
  fun w => (Ret tt, with_stdout (stdout w ++ [msg]) w).

(** The arguments as they are handed to the operating system, in order:
    an argument that is not a [str] raises [TypeError], a [str] with a
    NUL character raises [ValueError] (embedded null byte). *)
Fixpoint argv_of (args : list json) : res (list string) :=
  match args with
  | [] => Ret []
  | JStr s :: args' =>
      if has_char "000" s then Raise ValueError
      else
        match argv_of args' with
        | Ret argv => Ret (s :: argv)
        | Raise e => Raise e
        end
  | _ :: _ => Raise TypeError
  end.

(** [subprocess.Popen(args, ...)]: the arguments are converted first; the
    operating system may then refuse to start the process. *)
Definition Popen (args : list json) : M unit :=
  fun w =>
    match argv_of args with
    | Raise e => (Raise e, w)
    | Ret argv =>
        match popen_faults w with
        | Some msg :: faults => (Raise (OSError msg), with_popen faults (spawned w) w)
        | None :: faults => (Ret tt, with_popen faults (spawned w ++ [argv]) w)
        | [] => (Ret tt, with_popen [] (spawned w ++ [argv]) w)
        end
    end.

(** [threading.Thread(target=signal_watcher, args=(profile_dir,)).start()] *)
Definition start_watcher_thread (profile_dir : json) : M unit :=
  fun w => (Ret tt, with_threads (threads w ++ [profile_dir]) w).

(** *** Signal watcher *)

(** The body of the watcher's loop, up to its [time.sleep(0.3)]. *)
Definition signal_watcher_poll (profile_dir : json) : M unit :=
  signal <- read_signal profile_dir ;;
  match signal with
  | JNull => ret tt
  | _ =>
      url <- lift (py_get signal "url" JNull) ;;
      if py_truthy url
      then send_message (JObj [("action", JStr "open-url"); ("url", url)])
      else send_message (JObj [("action", JStr "activate")])
  end.

(** *** Time *)

(** A peer's watcher polls the shared directory and writes to its own
    stdout, kept in [relayed]; whether it survives is its own business. *)
Definition apply_event (ev : peer_event) (w : world) : world :=
  match ev with
  | PeerWatcher p =>
      let w' := snd (signal_watcher_poll (JStr p) (with_stdout [] w)) in
      with_relayed (relayed w ++ map (pair p) (stdout w'))
        (with_stdout (stdout w) w')
  | PeerWrite p content =>
      with_signal_dir true (with_slots (insert p content) w)
  end.

Definition monotonic : M Z := fun w => (Ret (clock w), w).

Definition due (now : Z) (ev : Z * peer_event) : bool := fst ev <=? now.

(** [time.sleep(d)]: the clock moves by [d] or more, and the actions of
    the other processes dated up to the new time take place. *)
Definition sleep (d : Z) : M unit :=
  fun w =>
    let late := match oversleep w with [] => 0 | n :: _ => Z.of_N n end in
    let now := clock w + d + late in
    let w' := with_time now (tail (oversleep w))
                (List.filter (fun ev => negb (due now ev)) (agenda w)) w in
    (Ret tt,
     foldl (fun w ev => apply_event (snd ev) w) w'
       (List.filter (due now) (agenda w))).

Definition signal_watcher_iteration (profile_dir : json) : M unit :=
  signal_watcher_poll profile_dir ;;
  sleep 300.

(** *** Waiting for consumption *)

(** What follows the loop of [wait_for_signal_consumed]. *)
Definition timed_out (signal_file : string) : M bool :=
  try_except (unlink signal_file) is_OSError (fun _ => ret tt) ;;
  ret false.

(** The [while] loop, unrolled at most [fuel] sleeps deep and cut like a
    time-out after that. [wait_for_signal_consumed] gives it enough
    fuel for the cut never to be reached ([wait_loop_fuel]). *)
Fixpoint wait_loop (fuel : nat) (signal_file : string) (deadline : Z)
  : M bool :=
  now <- monotonic ;;
  if now <? deadline then
    present <- path_exists signal_file ;;
    if negb present then ret true
    else
      match fuel with
      | S fuel' => sleep 100 ;; wait_loop fuel' signal_file deadline
      | O => timed_out signal_file
      end
  else timed_out signal_file.

Definition wait_for_signal_consumed (profile_dir : json) (timeout : Z)
  : M bool :=
  signal_file <- signal_path profile_dir ;;
  now <- monotonic ;;
  let deadline := now + timeout in
  wait_loop (Z.to_nat (timeout / 100 + 1)) signal_file deadline.

(** *** Activation *)

Definition activate_chrome : M unit :=
  Popen [JStr "osascript"; JStr "-e";
         JStr ("tell application " +:+ double_quote +:+ "Google Chrome"
               +:+ double_quote +:+ " to activate")].

Definition launched (m : M unit) : M json :=
  try_except
    (m ;; ret (JObj [("success", JBool true); ("method", JStr "launch")]))
    is_OSError
    (fun e =>
       ret (JObj [("error", JStr ("Failed to launch Chrome: " +:+ exn_text e))])).

Definition switch_profile (profile_dir : json) : M json :=
  activate_chrome ;;
  write_signal profile_dir JNull ;;
  consumed <- wait_for_signal_consumed profile_dir 2000 ;;
  if consumed
  then ret (JObj [("success", JBool true); ("method", JStr "signal")])
  else
    launched
      (Popen [JStr CHROME_BIN;
              JStr ("--profile-directory=" +:+ py_format profile_dir)]).

Definition open_url_in_profile (profile_dir url : json) : M json :=
  activate_chrome ;;
  write_signal profile_dir (JObj [("url", url)]) ;;
  consumed <- wait_for_signal_consumed profile_dir 2000 ;;
  if consumed
  then ret (JObj [("success", JBool true); ("method", JStr "signal")])
  else
    launched
      (Popen [JStr CHROME_BIN;
              JStr ("--profile-directory=" +:+ py_format profile_dir);
              url]).
(** *** Profile listing *)

(** [json.loads(LOCAL_STATE.read_text(encoding="utf-8"))] *)
Definition read_local_state : M json :=
  content <- (fun w => (local_state_file w, w)) ;;
  document <- lift (decode_utf8 content) ;;
  lift (json_loads document).

(** The picture is handed over already base64-encoded; a missing or
    unreadable file gives [None]. *)
Definition read_avatar_base64 (profile_dir : string) : M json :=
  fun w =>
    (Ret (match avatars w !! profile_dir with
          | Some b64 => JStr ("data:image/png;base64," +:+ b64)
          | None => JNull
          end), w).

(** [d[k]] *)
Definition py_getitem (d : list (string * json)) (k : string) : res json :=
  match dict_get d k with
  | Some v => Ret v
  | None => Raise KeyError
  end.

(** The [for i, dirname in enumerate(sorted_dirs)] loop, from index [i]
    on, with the values of [profiles] and [current_index] so far. *)
Fixpoint list_profiles (info_cache : list (string * json))
  (current_email : json) (dirs : list string) (i : Z)
  (profiles : list json) (current_index : json) : M (list json * json) :=
  match dirs with
  | [] => ret (profiles, current_index)
  | dirname :: dirs' =>
      info <- lift (py_getitem info_cache dirname) ;;
      user_name <- lift (py_get info "user_name" (JStr "")) ;;
      name <- lift (py_get info "name" (JStr dirname)) ;;
      color <- lift (py_get info "profile_highlight_color" JNull) ;;
      highlight_color <- lift (highlight_color_to_hex color) ;;
      avatar <- read_avatar_base64 dirname ;;
      let profile :=
        JObj [("directory", JStr dirname); ("name", name);
              ("email", user_name); ("highlightColor", highlight_color);
              ("avatar", avatar)] in
      list_profiles info_cache current_email dirs' (i + 1)
        (profiles ++ [profile])
        (if py_truthy current_email && py_eq user_name current_email
         then JInt i else current_index)
  end.

Definition get_profiles (current_email : json) : M json :=
  loaded <- try_except
              (local_state <- read_local_state ;; ret (inr local_state))
              (fun e => is_OSError e || is_JSONDecodeError e)
              (fun e => ret (inl e)) ;;
  match loaded with
  | inl e =>
      ret (JObj [("error",
                  JStr ("Failed to read Local State: " +:+ exn_text e))])
  | inr local_state =>
      profile <- lift (py_get local_state "profile" (JObj [])) ;;
      info_cache <- lift (py_get profile "info_cache" (JObj [])) ;;
      if negb (py_truthy info_cache)
      then ret (JObj [("error", JStr "No profiles found in Local State")])
      else
        match info_cache with
        | JObj d =>
            let sorted_dirs := sorted profile_sort_key (map fst d) in
            listed <- list_profiles d current_email sorted_dirs 0 [] JNull ;;
            ret (JObj [("profiles", JArr (fst listed));
                       ("currentIndex", snd listed)])
        | _ => raise AttributeError
        end
  end.

(** *** Dispatch loop *)

(** [result[k] = v] *)
Definition py_setitem (result : json) (k : string) (v : json) : res json :=
  match result with
  | JObj d => Ret (JObj (dict_set d k v))
  | _ => Raise TypeError
  end.

(** One turn of the [while True] loop of [main], for the message
    [read_message] returned.  The result is the new value of
    [watcher_started]. *)
Definition main_iteration (msg : json) (watcher_started : bool) : M bool :=
  action <- lift (py_get msg "action" JNull) ;;
  msg_id <- lift (py_get msg "id" JNull) ;;
  handled <-
    (if py_eq action (JStr "register") then
       profile_dir <- lift (py_get msg "profileDir" JNull) ;;
       started <-
         (if py_truthy profile_dir && negb watcher_started
          then start_watcher_thread profile_dir ;; ret true
          else ret watcher_started) ;;
       ret (JObj [("success", JBool true)], started)
     else if py_eq action (JStr "get-profiles") then
       current_email <- lift (py_get msg "currentEmail" JNull) ;;
       result <- get_profiles current_email ;;
       ret (result, watcher_started)
     else if py_eq action (JStr "switch-profile") then
       profile_dir <- lift (py_get msg "profileDir" JNull) ;;
       result <- switch_profile profile_dir ;;
       ret (result, watcher_started)
     else if py_eq action (JStr "open-url-in-profile") then
       profile_dir <- lift (py_get msg "profileDir" JNull) ;;
       url <- lift (py_get msg "url" JNull) ;;
       result <- open_url_in_profile profile_dir url ;;
       ret (result, watcher_started)
     else
       ret (JObj [("error", JStr ("Unknown action: " +:+ py_format action))],
            watcher_started)) ;;
  result <- (match msg_id with
             | JNull => ret (fst handled)
             | _ => lift (py_setitem (fst handled) "id" msg_id)
             end) ;;
  send_message result ;;
  ret (snd handled).

(** The process from start to exit, reading the messages of [stdin] in
    turn.  The end of [stdin] is the short read on which [read_message]
    calls [sys.exit(0)]; an uncaught exception ends the process with
    status 1.  Returns the exit status. *)
Fixpoint main_loop (stdin : list json) (watcher_started : bool) (w : world)
  : Z * world :=
  match stdin with
  | [] => (0, w)
  | msg :: stdin' =>
      match main_iteration msg watcher_started w with
      | (Ret started, w') => main_loop stdin' started w'
      | (Raise _, w') => (1, w')
      end
  end.

Definition main (stdin : list json) : world -> Z * world :=
  main_loop stdin false.
End Host.

(** ** A reference runtime

    A concrete [Runtime] on which closed examples run: strict UTF-8
    validation, [json.dumps] with its default separators and ASCII
    escapes, a recursive-descent [json.loads] and [repr].  A document is
    represented by its UTF-8 bytes.  The reader handles the documents of
    [json] values: integers are the only numbers it reads, and [\u]
    escapes are read up to code point 255. *)
Module Reference.

Definition code (c : ascii) : nat := nat_of_ascii c.

Definition continuation (b : nat) : bool := ((128 <=? b) && (b <=? 191))%nat.

Fixpoint utf8_valid (bs : list nat) : bool :=
  match bs with
  | [] => true
  | b0 :: r =>
      if (b0 <? 128)%nat then utf8_valid r
      else
        match r with
        | [] => false
        | b1 :: r1 =>
            if ((194 <=? b0) && (b0 <=? 223))%nat
            then continuation b1 && utf8_valid r1
            else
              match r1 with
              | [] => false
              | b2 :: r2 =>
                  if ((224 <=? b0) && (b0 <=? 239))%nat
                  then
                    continuation b1 && continuation b2
                    && (negb (b0 =? 224)%nat || (160 <=? b1)%nat)
                    && (negb (b0 =? 237)%nat || (b1 <=? 159)%nat)
                    && utf8_valid r2
                  else
                    match r2 with
                    | [] => false
                    | b3 :: r3 =>
                        ((240 <=? b0) && (b0 <=? 244))%nat
                        && continuation b1 && continuation b2
                        && continuation b3
                        && (negb (b0 =? 240)%nat || (144 <=? b1)%nat)
                        && (negb (b0 =? 244)%nat || (b1 <=? 143)%nat)
                        && utf8_valid r3
                    end
              end
        end
  end.

Definition decode (content : string) : res string :=
  if utf8_valid (map code (list_ascii_of_string content))
  then Ret content
  else Raise (UnicodeDecodeError "'utf-8' codec can't decode bytes").

(** *** Writing a document *)

Definition backslash : string := String "092"%char EmptyString.

Definition hex2 (n : nat) : string := hex_byte (Z.of_nat n).

Definition escape_json (c : ascii) : string :=
  let n := code c in
  if (n =? 34)%nat then backslash +:+ double_quote
  else if (n =? 92)%nat then backslash +:+ backslash
  else if (n =? 10)%nat then backslash +:+ "n"
  else if (n =? 13)%nat then backslash +:+ "r"
  else if (n =? 9)%nat then backslash +:+ "t"
  else if (n =? 8)%nat then backslash +:+ "b"
  else if (n =? 12)%nat then backslash +:+ "f"
  else if ((n <? 32) || (126 <? n))%nat then backslash +:+ "u00" +:+ hex2 n
  else String c EmptyString.

Fixpoint concat_map (f : ascii -> string) (s : string) : string :=
  match s with
  | EmptyString => EmptyString
  | String c s' => f c +:+ concat_map f s'
  end.

Definition quoted (s : string) : string :=
  double_quote +:+ concat_map escape_json s +:+ double_quote.

Definition decimal (z : Z) : string :=
  DecimalString.NilZero.string_of_int (Z.to_int z).

Fixpoint dumps (x : json) : string :=
  match x with
  | JNull => "null"
  | JBool true => "true"
  | JBool false => "false"
  | JInt z => decimal z
  | JStr s => quoted s
  | JArr l =>
      "[" +:+
      (fix items (l : list json) : string :=
         match l with
         | [] => ""
         | x :: l' =>
             match l' with
             | [] => dumps x
             | _ :: _ => dumps x +:+ ", " +:+ items l'
             end
         end) l +:+ "]"
  | JObj d =>
      "{" +:+
      (fix members (d : list (string * json)) : string :=
         match d with
         | [] => ""
         | (k, v) :: d' =>
             match d' with
             | [] => quoted k +:+ ": " +:+ dumps v
             | _ :: _ => quoted k +:+ ": " +:+ dumps v +:+ ", " +:+ members d'
             end
         end) d +:+ "}"
  end.

(** *** Reading a document *)

Definition json_space (c : ascii) : bool :=
  let n := code c in ((n =? 32) || (n =? 9) || (n =? 10) || (n =? 13))%nat.

Fixpoint skip_space (cs : list ascii) : list ascii :=
  match cs with
  | c :: cs' => if json_space c then skip_space cs' else cs
  | [] => []
  end.

Fixpoint read_digits (cs : list ascii) (acc : Z) : Z * list ascii :=
  match cs with
  | c :: cs' =>
      match digit_value c with
      | Some d => read_digits cs' (10 * acc + d)
      | None => (acc, cs)
      end
  | [] => (acc, [])
  end.

Definition starts_fraction (cs : list ascii) : bool :=
  match cs with
  | c :: _ => Ascii.eqb c "." || Ascii.eqb c "e" || Ascii.eqb c "E"
  | [] => false
  end.

(** An integer: [0], or a non-zero digit and more digits. *)
Definition read_natural (cs : list ascii) : option (Z * list ascii) :=
  match cs with
  | c :: cs' =>
      match digit_value c with
      | Some 0 => if starts_fraction cs' then None else Some (0, cs')
      | Some d =>
          let '(n, rest) := read_digits cs' d in
          if starts_fraction rest then None else Some (n, rest)
      | None => None
      end
  | [] => None
  end.

Definition hex_value (c : ascii) : option nat :=
  let n := code c in
  if ((48 <=? n) && (n <=? 57))%nat then Some (n - 48)%nat
  else if ((97 <=? n) && (n <=? 102))%nat then Some (n - 87)%nat
  else if ((65 <=? n) && (n <=? 70))%nat then Some (n - 55)%nat
  else None.

(** The characters of a string literal after its opening quote. *)
Fixpoint read_string (cs : list ascii) (acc : string)
  : option (string * list ascii) :=
  match cs with
  | [] => None
  | c :: cs' =>
      let n := code c in
      if (n =? 34)%nat then Some (acc, cs')
      else if (n <? 32)%nat then None
      else if (n =? 92)%nat then
        match cs' with
        | e :: cs'' =>
            let keep (x : nat) :=
              read_string cs'' (acc +:+ String (ascii_of_nat x) EmptyString) in
            let m := code e in
            if (m =? 34)%nat then keep 34%nat
            else if (m =? 92)%nat then keep 92%nat
            else if (m =? 47)%nat then keep 47%nat
            else if (m =? 110)%nat then keep 10%nat
            else if (m =? 114)%nat then keep 13%nat
            else if (m =? 116)%nat then keep 9%nat
            else if (m =? 98)%nat then keep 8%nat
            else if (m =? 102)%nat then keep 12%nat
            else if (m =? 117)%nat then
              match cs'' with
              | z1 :: z2 :: h1 :: h2 :: cs3 =>
                  match hex_value z1, hex_value z2, hex_value h1, hex_value h2 with
                  | Some 0%nat, Some 0%nat, Some a, Some b =>
                      read_string cs3
                        (acc +:+ String (ascii_of_nat (16 * a + b)) EmptyString)
                  | _, _, _, _ => None
                  end
              | _ => None
              end
            else None
        | [] => None
        end
      else read_string cs' (acc +:+ String c EmptyString)
  end.

Definition expect (word : string) (cs : list ascii) : option (list ascii) :=
  let ws := list_ascii_of_string word in
  if String.eqb (string_of_list_ascii (firstn (List.length ws) cs)) word
  then Some (skipn (List.length ws) cs)
  else None.

Definition first_is (c : ascii) (cs : list ascii) : bool :=
  match cs with
  | x :: _ => Ascii.eqb x c
  | [] => false
  end.

Fixpoint read_value (fuel : nat) (cs : list ascii)
  : option (json * list ascii) :=
  match fuel with
  | O => None
  | S fuel' =>
      match skip_space cs with
      | [] => None
      | c :: rest =>
          let n := code c in
          if (n =? 110)%nat then
            option_map (pair JNull) (expect "null" (c :: rest))
          else if (n =? 116)%nat then
            option_map (pair (JBool true)) (expect "true" (c :: rest))
          else if (n =? 102)%nat then
            option_map (pair (JBool false)) (expect "false" (c :: rest))
          else if (n =? 34)%nat then
            option_map (fun p => (JStr (fst p), snd p)) (read_string rest "")
          else if (n =? 45)%nat then
            option_map (fun p => (JInt (- fst p), snd p)) (read_natural rest)
          else if (n =? 91)%nat then
            if first_is "]" (skip_space rest)
            then Some (JArr [], tail (skip_space rest))
            else read_items fuel' rest []
          else if (n =? 123)%nat then
            if first_is "}" (skip_space rest)
            then Some (JObj [], tail (skip_space rest))
            else read_members fuel' rest []
          else
            option_map (fun p => (JInt (fst p), snd p)) (read_natural (c :: rest))
      end
  end
with read_items (fuel : nat) (cs : list ascii) (acc : list json)
  : option (json * list ascii) :=
  match fuel with
  | O => None
  | S fuel' =>
      match read_value fuel' cs with
      | Some (x, rest) =>
          match skip_space rest with
          | c :: rest' =>
              if Ascii.eqb c "," then read_items fuel' rest' (acc ++ [x])
              else if Ascii.eqb c "]" then Some (JArr (acc ++ [x]), rest')
              else None
          | [] => None
          end
      | None => None
      end
  end
with read_members (fuel : nat) (cs : list ascii) (acc : list (string * json))
  : option (json * list ascii) :=
  match fuel with
  | O => None
  | S fuel' =>
      match skip_space cs with
      | q :: after_quote =>
          if Ascii.eqb q "034" then
            match read_string after_quote "" with
            | Some (k, rest) =>
                match skip_space rest with
                | colon :: rest' =>
                    if Ascii.eqb colon ":" then
                      match read_value fuel' rest' with
                      | Some (v, rest'') =>
                          match skip_space rest'' with
                          | c :: rest3 =>
                              if Ascii.eqb c ","
                              then read_members fuel' rest3 (dict_set acc k v)
                              else if Ascii.eqb c "}"
                              then Some (JObj (dict_set acc k v), rest3)
                              else None
                          | [] => None
                          end
                      | None => None
                      end
                    else None
                | [] => None
                end
            | None => None
            end
          else None
      | [] => None
      end
  end.

Definition loads (document : string) : res json :=
  let cs := list_ascii_of_string document in
  match read_value (S (List.length cs)) cs with
  | Some (x, rest) =>
      match skip_space rest with
      | [] => Ret x
      | _ :: _ => Raise (JSONDecodeError "Extra data")
      end
  | None => Raise (JSONDecodeError "Expecting value")
  end.

(** *** [repr] *)

Definition printable (n : nat) : bool :=
  ((32 <=? n) && (n <=? 126) || (161 <=? n) && negb (n =? 173))%nat.

Definition escape_repr (delimiter : ascii) (c : ascii) : string :=
  let n := code c in
  if Ascii.eqb c delimiter || (n =? 92)%nat then backslash +:+ String c EmptyString
  else if (n =? 10)%nat then backslash +:+ "n"
  else if (n =? 13)%nat then backslash +:+ "r"
  else if (n =? 9)%nat then backslash +:+ "t"
  else if printable n then String c EmptyString
  else backslash +:+ "x" +:+ hex2 n.

Definition repr_str (s : string) : string :=
  let delimiter : ascii :=
    if has_char "'" s && negb (has_char "034" s) then "034"%char else "'"%char in
  String delimiter (concat_map (escape_repr delimiter) s)
  +:+ String delimiter EmptyString.

Fixpoint repr (x : json) : string :=
  match x with
  | JNull => "None"
  | JBool true => "True"
  | JBool false => "False"
  | JInt z => decimal z
  | JStr s => repr_str s
  | JArr l =>
      "[" +:+
      (fix items (l : list json) : string :=
         match l with
         | [] => ""
         | x :: l' =>
             match l' with
             | [] => repr x
             | _ :: _ => repr x +:+ ", " +:+ items l'
             end
         end) l +:+ "]"
  | JObj d =>
      "{" +:+
      (fix members (d : list (string * json)) : string :=
         match d with
         | [] => ""
         | (k, v) :: d' =>
             match d' with
             | [] => repr_str k +:+ ": " +:+ repr v
             | _ :: _ => repr_str k +:+ ": " +:+ repr v +:+ ", " +:+ members d'
             end
         end) d +:+ "}"
  end.

#[export] Instance runtime : Runtime := {|
  text := string;
  json_dumps := dumps;
  json_loads := loads;
  encode_utf8 := fun document => document;
  decode_utf8 := decode;
  py_repr := repr;
|}.

End Reference.

(** ** Terms of the properties *)

(** The integer that ends a directory name, when [profile_sort_key] finds
    one: the last space-separated token, read by [int]. *)
Definition trailing_int (dirname : string) : option Z :=
  match res_bind (py_last (py_split dirname)) py_int with
  | Ret num => Some num
  | Raise _ => None
  end.

Definition is_default (dirname : string) : bool := String.eqb dirname "Default".

Definition is_numbered (dirname : string) : bool :=
  negb (is_default dirname) &&
  match trailing_int dirname with Some _ => true | None => false end.

Definition is_unnumbered (dirname : string) : bool :=
  negb (is_default dirname) &&
  match trailing_int dirname with Some _ => false | None => true end.

Definition has_number (n : Z) (dirname : string) : bool :=
  negb (is_default dirname) &&
  match trailing_int dirname with Some m => (m =? n) | None => false end.

Definition all_digits (cs : list ascii) : bool :=
  forallb (fun c => match digit_value c with Some _ => true | None => false end) cs.

(** A non-empty string of decimal digits, and its value. *)
Definition decimal_digits (s : string) : bool :=
  negb (String.eqb s "") && all_digits (list_ascii_of_string s).

Definition digits_number (s : string) : Z :=
  fold_left (fun acc c => 10 * acc + match digit_value c with Some d => d | None => 0 end)
    (list_ascii_of_string s) 0.

(** The ordering as the interface words it: [Default], then the names
    [Profile <N>] by [N], then every other name. *)
Definition profile_number (dirname : string) : option Z :=
  if String.prefix "Profile " dirname
  then
    let digits := String.substring 8 (String.length dirname - 8) dirname in
    if decimal_digits digits then Some (digits_number digits) else None
  else None.

Definition stated_sort_key (dirname : string) : Z * Z :=
  if String.eqb dirname "Default" then (0, 0)
  else
    match profile_number dirname with
    | Some n => (1, n)
    | None => (2, 0)
    end.

Definition stated_order (dirs : list string) : list string :=
  sorted stated_sort_key dirs.

(** The [directory] field of a profile record. *)
Definition profile_directory (profile : json) : option json :=
  match profile with
  | JObj d => dict_get d "directory"
  | _ => None
  end.

Definition result_field (result : json) (k : string) : option json :=
  match result with
  | JObj d => dict_get d k
  | _ => None
  end.

(** Numbered names in ascending order. *)
Definition ascending (a b : string) : Prop :=
  forall m n : Z, trailing_int a = Some m -> trailing_int b = Some n -> m <= n.

Section Timing.
Context `{Runtime}.

(** The machine after [k] more polls of [wait_for_signal_consumed], that
    is after [k] sleeps of a tenth of a second. *)
Fixpoint after_sleeps (k : nat) (w : world) : world :=
  match k with
  | O => w
  | S k' => after_sleeps k' (snd (sleep 100 w))
  end.

(** The files of the signal directory at time [t], as the other
    processes leave them. *)
Definition slots_at (t : Z) (w : world) : gmap string string :=
  slots (foldl (fun w ev => apply_event (snd ev) w) w
           (List.filter (due t) (agenda w))).

(** The wait as the interface words it: success exactly when the slot
    ceases to exist before the time-out elapses. *)
Definition consumed_before (p : string) (timeout : Z) (w : world) : Prop :=
  exists t : Z, clock w <= t < clock w + timeout /\ slots_at t w !! p = None.

Definition stated_wait (p : string) (timeout : Z) (w : world) : Prop :=
  forall (b : bool) (w' : world),
    wait_for_signal_consumed (JStr p) timeout w = (Ret b, w') ->
    (b = true <-> consumed_before p timeout w).
End Timing.

(** The results of an activation, and the commands it runs. *)
Definition by_signal : json :=
  JObj [("success", JBool true); ("method", JStr "signal")].

Definition by_launch : json :=
  JObj [("success", JBool true); ("method", JStr "launch")].

Definition launch_failed (reason : string) : json :=
  JObj [("error", JStr ("Failed to launch Chrome: " +:+ reason))].

Definition activate_argv : list string :=
  ["osascript"; "-e";
   "tell application " +:+ double_quote +:+ "Google Chrome" +:+ double_quote
   +:+ " to activate"].

Definition launch_argv (profile : string) (url : option string) : list string :=
  [CHROME_BIN; "--profile-directory=" +:+ profile]
  ++ match url with Some u => [u] | None => [] end.

(** The machine after [activate_chrome] started [osascript]. *)
Definition after_osascript (w : world) : world :=
  with_popen (tail (popen_faults w)) (spawned w ++ [activate_argv]) w.

(** The machine after [osascript] could not be started. *)
Definition after_osascript_failed (w : world) : world :=
  with_popen (tail (popen_faults w)) (spawned w) w.

(** [m] leaves the part [proj] of the machine as it found it. *)
Definition keeps {X A : Type} (proj : world -> X) (m : M A) : Prop :=
  forall w : world, proj (snd (m w)) = proj w.

(** Whatever [m] returns satisfies [Q]. *)
Definition returns {A : Type} (Q : A -> Prop) (m : M A) : Prop :=
  forall (w w' : world) (a : A), m w = (Ret a, w') -> Q a.

(** [msg.get(k)] on a request. *)
Definition field (d : list (string * json)) (k : string) : json :=
  match dict_get d k with
  | Some v => v
  | None => JNull
  end.




(** A result without an [id]. *)
Definition unaddressed (result : json) : Prop :=
  exists d : list (string * json), result = JObj d /\ dict_get d "id" = None.

(** The response carries the [id] of the request, or none. *)
Definition echoes (msg_id response : json) : Prop :=
  match msg_id with
  | JNull => result_field response "id" = None
  | _ => result_field response "id" = Some msg_id
  end.

Section Readings.
Context `{Runtime}.

(** The state machine that [switch_profile] and [open_url_in_profile]
    share. *)
Definition activation (profile_dir data : json) (args : list json) : M json :=
  activate_chrome ;;
  write_signal profile_dir data ;;
  consumed <- wait_for_signal_consumed profile_dir 2000 ;;
  if consumed then ret by_signal else launched (Popen args).

(** The machine when the wait of an activation for [p] begins:
    [osascript] is started and the slot of [p] holds the document of
    [data]. *)
Definition signalled (p : string) (data : json) (w : world) : world :=
  with_slots (insert p (encode_utf8 (json_dumps data)))
    (with_signal_dir true (after_osascript w)).


(** The part of [main_iteration] that computes the result. *)
Definition dispatch (d : list (string * json)) (watcher_started : bool)
  : M (json * bool) :=
  let action := field d "action" in
  if py_eq action (JStr "register") then
    let profile_dir := field d "profileDir" in
    started <-
      (if py_truthy profile_dir && negb watcher_started
       then start_watcher_thread profile_dir ;; ret true
       else ret watcher_started) ;;
    ret (JObj [("success", JBool true)], started)
  else if py_eq action (JStr "get-profiles") then
    result <- get_profiles (field d "currentEmail") ;;
    ret (result, watcher_started)
  else if py_eq action (JStr "switch-profile") then
    result <- switch_profile (field d "profileDir") ;;
    ret (result, watcher_started)
  else if py_eq action (JStr "open-url-in-profile") then
    result <- open_url_in_profile (field d "profileDir") (field d "url") ;;
    ret (result, watcher_started)
  else
    ret (JObj [("error", JStr ("Unknown action: " +:+ py_format action))],
         watcher_started).

(** The dispatch loop as the interface words it: each request gets
    exactly one response, which echoes its [id]. *)
Definition stated_response (msg : json) (watcher_started : bool) (w : world)
  : Prop :=
  exists (d : list (string * json)) (response : json),
    msg = JObj d /\
    stdout (snd (main_iteration msg watcher_started w)) = stdout w ++ [response] /\
    echoes (field d "id") response.
End Readings.

(** The response to a request: the result, with the request's [id] when it
    has one. *)
Definition with_id (msg_id : json) (result : list (string * json)) : json :=
  match msg_id with
  | JNull => JObj result
  | _ => JObj (dict_set result "id" msg_id)
  end.

(** The directories of a listing, when [get_profiles] produced one. *)
Definition listed_directories (outcome : res json * world)
  : option (list (option json)) :=
  match fst outcome with
  | Ret r =>
      match result_field r "profiles" with
      | Some (JArr ps) => Some (map profile_directory ps)
      | _ => None
      end
  | Raise _ => None
  end.

(** ** Machines for closed examples *)

(** A machine at rest whose registry file holds [info_cache]. *)
Definition registry_world (info_cache : list (string * json)) : world :=
  World 0 [] false ∅ [] [] [] [] [] []
    (Ret (Reference.dumps (JObj [("profile", JObj [("info_cache", JObj info_cache)])])))
    ∅.

(** A machine at rest: nothing in the signal directory, no registry. *)
Definition quiet_world : world :=
  World 0 [] false ∅ [] [] [] [] [] []
    (Raise (OSError "[Errno 2] No such file or directory")) ∅.

(** The slot of [Profile 1] holds the single byte 0xFF. *)
Definition corrupt_world : world :=
  with_signal_dir true
    (with_slots (insert "Profile 1" (String "255"%char EmptyString)) quiet_world).

(** A signal for [Profile 1] is pending, and the watcher of [Profile 1]
    polls 1950 ms from now. *)
Definition late_take_world : world :=
  World 0 [] true {["Profile 1" := "{}"]} [(1950, PeerWatcher "Profile 1")]
    [] [] [] [] []
    (Raise (OSError "[Errno 2] No such file or directory")) ∅.

Definition register_a : list (string * json) :=
  [("action", JStr "register"); ("profileDir", JStr "Profile 1"); ("id", JInt 1)].

Definition register_b : list (string * json) :=
  [("action", JStr "register"); ("profileDir", JStr "Profile 2"); ("id", JInt 2)].

Definition two_registrations : list json := [JObj register_a; JObj register_b].

(** A [switch-profile] request that names no profile. *)
Definition unanswered_request : json :=
  JObj [("action", JStr "switch-profile"); ("id", JInt 7)].

Definition four_profiles : list (string * json) :=
  [("Profile 10", JObj []); ("Default", JObj []); ("Profile 2", JObj []);
   ("Custom", JObj [])].

Definition four_profiles_result : json :=
  Eval vm_compute in
    match fst (@get_profiles Reference.runtime JNull
                 (registry_world four_profiles)) with
    | Ret r => r
    | Raise _ => JNull
    end.

Definition four_profiles_listed : list json :=
  Eval vm_compute in
    match result_field four_profiles_result "profiles" with
    | Some (JArr ps) => ps
    | _ => []
    end.

(** ** Framed transport *)

Definition byte (n : Z) : ascii := ascii_of_nat (Z.to_nat (n mod 256)).

(** [struct.pack("<I", n)], or [None] for the [struct.error] of a number
    that does not fit in 32 bits. *)
Definition pack_u32 (n : Z) : option string :=
  if (0 <=? n) && (n <? 4294967296)
  then Some (String (byte n)
            (String (byte (n / 256))
            (String (byte (n / 65536))
            (String (byte (n / 16777216)) EmptyString))))
  else None.

(** [struct.unpack("<I", raw)[0]]; [raw] has four bytes where
    [read_message] calls it. *)
Definition unpack_u32 (raw : string) : Z :=
  match raw with
  | String b0 (String b1 (String b2 (String b3 EmptyString))) =>
      Z.of_nat (nat_of_ascii b0) + 256 * Z.of_nat (nat_of_ascii b1)
      + 65536 * Z.of_nat (nat_of_ascii b2)
      + 16777216 * Z.of_nat (nat_of_ascii b3)
  | _ => 0
  end.

(** [stream.read(n)] on what is left of a stream: the bytes read, up to
    [n] of them, and the bytes left. *)
Fixpoint take_bytes (n : nat) (s : string) : string :=
  match n, s with
  | S n', String c s' => String c (take_bytes n' s')
  | _, _ => EmptyString
  end.

Fixpoint drop_bytes (n : nat) (s : string) : string :=
  match n, s with
  | S n', String _ s' => drop_bytes n' s'
  | _, _ => s
  end.

(** How [read_message] ends: with a message, by [sys.exit], or with an
    exception that nobody catches before [main] exits with status 1. *)
Inductive read_result : Type :=
| Message (msg : json) (rest : string)
| SystemExit (code : Z)
| Uncaught (e : exn).

Section Transport.
Context `{Runtime}.

(** [json.dumps(msg, separators=(",", ":"))] *)
Variable json_dumps_compact : json -> text.

(** [read_message] on the bytes [stdin] still holds; a message comes with
    the bytes left after it. *)
Definition read_message (stdin : string) : read_result :=
  let raw_length := take_bytes 4 stdin in
  if (String.length raw_length <? 4)%nat then SystemExit 0
  else
    let length := unpack_u32 raw_length in
    let data := take_bytes (Z.to_nat length) (drop_bytes 4 stdin) in
    if Z.of_nat (String.length data) <? length then SystemExit 0
    else
      match res_bind (decode_utf8 data) json_loads with
      | Ret msg => Message msg (drop_bytes (Z.to_nat length) (drop_bytes 4 stdin))
      | Raise e => Uncaught e
      end.

(** The bytes that [send_message msg] writes to stdout. *)
Definition send_message_bytes (msg : json) : option string :=
  let encoded := encode_utf8 (json_dumps_compact msg) in
  match pack_u32 (Z.of_nat (String.length encoded)) with
  | Some header => Some (header +:+ encoded)
  | None => None
  end.

(** The documents of [msg] survive encoding and parsing. *)
Definition frame_round_trips (msg : json) : Prop :=
  decode_utf8 (encode_utf8 (json_dumps_compact msg)) = Ret (json_dumps_compact msg) /\
  json_loads (json_dumps_compact msg) = Ret msg.

(** [main] on the bytes of stdin, at most [fuel] messages long. *)
Fixpoint main_bytes (fuel : nat) (stdin : string) (watcher_started : bool)
  (w : world) : Z * world :=
  match fuel with
  | O => (0, w)
  | S fuel' =>
      match read_message stdin with
      | Message msg rest =>
          match main_iteration msg watcher_started w with
          | (Ret started, w') => main_bytes fuel' rest started w'
          | (Raise _, w') => (1, w')
          end
      | SystemExit code => (code, w)
      | Uncaught _ => (1, w)
      end
  end.
End Transport.

(** The frames of a sequence of messages, one after the other. *)
Fixpoint concat_bytes (frames : list string) : string :=
  match frames with
  | [] => EmptyString
  | f :: frames' => f +:+ concat_bytes frames'
  end.

(** [json.dumps] with the separators [(",", ":")], for the reference
    runtime. *)
Fixpoint dumps_compact (x : json) : string :=
  match x with
  | JNull => "null"
  | JBool true => "true"
  | JBool false => "false"
  | JInt z => Reference.decimal z
  | JStr s => Reference.quoted s
  | JArr l =>
      "[" +:+
      (fix items (l : list json) : string :=
         match l with
         | [] => ""
         | x :: l' =>
             match l' with
             | [] => dumps_compact x
             | _ :: _ => dumps_compact x +:+ "," +:+ items l'
             end
         end) l +:+ "]"
  | JObj d =>
      "{" +:+
      (fix members (d : list (string * json)) : string :=
         match d with
         | [] => ""
         | (k, v) :: d' =>
             match d' with
             | [] => Reference.quoted k +:+ ":" +:+ dumps_compact v
             | _ :: _ =>
                 Reference.quoted k +:+ ":" +:+ dumps_compact v +:+ "," +:+ members d'
             end
         end) d +:+ "}"
  end.

(** ** Terms of the further properties *)

(** The value of a lowercase hexadecimal digit, and of a colour
    [#rrggbb]. *)
Definition hex_digit_value (c : ascii) : option Z :=
  let n := nat_of_ascii c in
  if ((48 <=? n) && (n <=? 57))%nat then Some (Z.of_nat n - 48)
  else if ((97 <=? n) && (n <=? 102))%nat then Some (Z.of_nat n - 87)
  else None.

Fixpoint hex_digits_value (s : string) (acc : Z) : option Z :=
  match s with
  | EmptyString => Some acc
  | String c s' =>
      match hex_digit_value c with
      | Some d => hex_digits_value s' (16 * acc + d)
      | None => None
      end
  end.

Definition hex_colour_value (s : string) : option Z :=
  match s with
  | String c digits =>
      if Ascii.eqb c "#" && (String.length digits =? 6)%nat
      then hex_digits_value digits 0
      else None
  | EmptyString => None
  end.

(** A registry entry that [get_profiles] can list: a dict whose
    [profile_highlight_color], if any, is [None] or an integer. *)
Definition colour_readable (value : json) : bool :=
  match value with
  | JNull | JInt _ | JBool _ => true
  | _ => false
  end.

Definition entry_readable (entry : string * json) : bool :=
  match snd entry with
  | JObj info => colour_readable (field info "profile_highlight_color")
  | _ => false
  end.

(** [profile] is the record of the entry [dirname] of the registry. *)
Definition is_record (w : world) (info_cache : list (string * json))
  (dirname : string) (profile : json) : Prop :=
  exists (info : list (string * json)) (colour : json),
    dict_get info_cache dirname = Some (JObj info) /\
    highlight_color_to_hex (field info "profile_highlight_color") = Ret colour /\
    profile =
      JObj [("directory", JStr dirname);
            ("name", match dict_get info "name" with
                     | Some name => name
                     | None => JStr dirname
                     end);
            ("email", match dict_get info "user_name" with
                      | Some user_name => user_name
                      | None => JStr ""
                      end);
            ("highlightColor", colour);
            ("avatar", match avatars w !! dirname with
                       | Some b64 => JStr ("data:image/png;base64," +:+ b64)
                       | None => JNull
                       end)].

(** The profile belongs to [current_email]. *)
Definition email_matches (current_email profile : json) : bool :=
  py_truthy current_email &&
  py_eq (match result_field profile "email" with Some e => e | None => JNull end)
    current_email.

(** [current_index] after the profiles [new], listed from index [i] on. *)
Fixpoint scan_index (current_email : json) (new : list json) (i : Z)
  (current_index : json) : json :=
  match new with
  | [] => current_index
  | profile :: new' =>
      scan_index current_email new' (i + 1)
        (if email_matches current_email profile then JInt i else current_index)
  end.

(** What [scan_index] yields: the index of the last profile of [new] that
    belongs to [current_email], or [current_index] when there is none. *)
Definition last_match (current_email : json) (new : list json) (i : Z)
  (current_index result : json) : Prop :=
  (result = current_index /\
   Forall (fun profile => email_matches current_email profile = false) new) \/
  (exists (k : nat) (profile : json),
      result = JInt (i + Z.of_nat k) /\
      nth_error new k = Some profile /\
      email_matches current_email profile = true /\
      forall (j : nat) (other : json),
        (k < j)%nat -> nth_error new j = Some other ->
        email_matches current_email other = false).

Section Registry.
Context `{Runtime}.

(** The registry file of [w] parses, and its [profile.info_cache] is
    [info_cache]. *)
Definition registry_is (w : world) (info_cache : json) : Prop :=
  exists local_state profile : json,
    fst (read_local_state w) = Ret local_state /\
    py_get local_state "profile" (JObj []) = Ret profile /\
    py_get profile "info_cache" (JObj []) = Ret info_cache.
End Registry.

(** The event the watcher sends for a payload. *)
Definition relayed_event (payload : list (string * json)) : json :=
  if py_truthy (field payload "url")
  then JObj [("action", JStr "open-url"); ("url", field payload "url")]
  else JObj [("action", JStr "activate")].


(** The exception that [subprocess.Popen] raises for a URL it cannot take
    as an argument. *)
Definition launch_error (url : json) : option exn :=
  match url with
  | JStr s => if has_char "000" s then Some ValueError else None
  | _ => Some TypeError
  end.

(** The actions that [main] knows. *)
Definition known_actions : list string :=
  ["register"; "get-profiles"; "switch-profile"; "open-url-in-profile"].

(** ** Further example machines *)

(** A machine whose registry file reads as [content]. *)
Definition registry_file_world (content : res string) : world :=
  World 0 [] false ∅ [] [] [] [] [] [] content ∅.

(** A URL with a NUL character. *)
Definition nul_url : string :=
  "https://example.org/" +:+ String "000"%char EmptyString.

(** A machine on which the next process cannot be started. *)
Definition faulty_world : world :=
  with_popen [Some "[Errno 2] No such file or directory: 'osascript'"] []
    quiet_world.

(** Two profiles with their accounts. *)
Definition two_accounts : list (string * json) :=
  [("Profile 1", JObj [("user_name", JStr "b@example.org")]);
   ("Default", JObj [("user_name", JStr "a@example.org"); ("name", JStr "Home")])].

(** A registry entry that is not a dict. *)
Definition broken_entry : list (string * json) :=
  [("Default", JStr "Home")].

Definition get_profiles_request : list (string * json) :=
  [("action", JStr "get-profiles"); ("id", JInt 3)].

(** A request without [action]. *)
Definition bare_request : list (string * json) :=
  [("id", JInt 4)].

(** The frame of a message, and the length prefix of a frame, with the
    reference printer. *)
Definition frame_of (msg : json) : string :=
  match send_message_bytes (H:=Reference.runtime) dumps_compact msg with
  | Some frame => frame
  | None => ""
  end.

Definition header_of (n : Z) : string :=
  match pack_u32 n with
  | Some header => header
  | None => ""
  end.

(** * Properties *)

(** ** Highlight colour *)

Lemma format_02x_byte (x : Z) : 0 <= x < 256 -> format_02x x = hex_byte x.
Proof.
  intros Hx.
  assert (Hall : forallb (fun n => String.eqb (format_02x (Z.of_nat n))
                                     (hex_byte (Z.of_nat n))) (seq 0 256) = true)
    by (vm_compute; reflexivity).
  rewrite forallb_forall in Hall.
  specialize (Hall (Z.to_nat x)).
  rewrite Z2Nat.id in Hall by lia.
  apply String.eqb_eq, Hall, in_seq. lia.
Qed.

Lemma colour_component (v k : Z) :
  0 <= k ->
  Z.land (Z.shiftr (Z.land v 4294967295) k) 255 = (v mod 2 ^ 32) / 2 ^ k mod 2 ^ 8.
Proof.
  intros Hk.
  change 4294967295 with (Z.ones 32). change 255 with (Z.ones 8).
  rewrite !Z.land_ones by lia. rewrite Z.shiftr_div_pow2 by lia. reflexivity.
Qed.

(** C8. [highlight_color_to_hex] maps [None] to [None], and every integer
    [v], in particular every signed 32-bit one, to ["#rrggbb"] in
    lowercase hexadecimal, where rr, gg and bb are bits 16-23, 8-15 and
    0-7 of [v] masked to 32 bits; [-1] gives ["#ffffff"] and [0x00112233]
    gives ["#112233"]. *)
Theorem highlight_color_to_hex_spec :
  highlight_color_to_hex JNull = Ret JNull /\
  (forall v : Z,
      let unsigned := v mod 2 ^ 32 in
      highlight_color_to_hex (JInt v) =
        Ret (JStr ("#" +:+ hex_byte (unsigned / 2 ^ 16 mod 2 ^ 8)
                       +:+ hex_byte (unsigned / 2 ^ 8 mod 2 ^ 8)
                       +:+ hex_byte (unsigned mod 2 ^ 8)))) /\
  highlight_color_to_hex (JInt (-1)) = Ret (JStr "#ffffff") /\
  highlight_color_to_hex (JInt 1122867) = Ret (JStr "#112233").
Proof.
  split; [reflexivity|]. split; [|split; reflexivity].
  intros v unsigned. unfold highlight_color_to_hex, py_as_int.
  rewrite !colour_component by lia.
  replace (Z.land (Z.land v 4294967295) 255) with (v mod 2 ^ 32 mod 2 ^ 8).
  2:{ change 4294967295 with (Z.ones 32). change 255 with (Z.ones 8).
      rewrite !Z.land_ones by lia. reflexivity. }
  fold unsigned.
  rewrite !format_02x_byte; [reflexivity | apply Z.mod_pos_bound; lia ..].
Qed.

(** ** Stable sorting *)

Lemma key_lt_irrefl (k : Z * Z) : key_lt k k = false.
Proof. unfold key_lt. destruct k as [a b]; simpl. lia. Qed.

Lemma key_lt_asym (k1 k2 : Z * Z) : key_lt k1 k2 = true -> key_lt k2 k1 = false.
Proof. unfold key_lt. destruct k1, k2; simpl. lia. Qed.

Section SortedFacts.
Context {A : Type} (key : A -> Z * Z).

Lemma insert_by_perm (x : A) (l : list A) :
  Permutation (insert_by key x l) (x :: l).
Proof.
  induction l as [|y l IH]; simpl; [reflexivity|].
  destruct (key_lt (key y) (key x)); [|reflexivity].
  rewrite IH. apply perm_swap.
Qed.

Lemma sorted_perm (l : list A) : Permutation (sorted key l) l.
Proof.
  induction l as [|x l IH]; simpl; [reflexivity|].
  rewrite insert_by_perm. by constructor.
Qed.

Lemma sorted_In (x : A) (l : list A) : In x (sorted key l) <-> In x l.
Proof.
  split; apply Permutation_in; [|symmetry]; apply sorted_perm.
Qed.

Lemma in_order_trans_lt (y x z : A) :
  key_lt (key y) (key x) = true -> in_order key x z -> in_order key y z.
Proof.
  unfold in_order, key_lt. destruct (key x), (key y), (key z); simpl. lia.
Qed.

Lemma in_order_trans (x y z : A) : in_order key x y -> in_order key y z -> in_order key x z.
Proof.
  unfold in_order, key_lt. destruct (key x), (key y), (key z); simpl. lia.
Qed.

Lemma insert_by_sorted (x : A) (l : list A) :
  StronglySorted (in_order key) l -> StronglySorted (in_order key) (insert_by key x l).
Proof.
  induction 1 as [|y l Hl IH Hy]; simpl; [repeat constructor|].
  destruct (key_lt (key y) (key x)) eqn:E.
  - constructor; [exact IH|].
    rewrite List.Forall_forall in *. intros z Hz.
    apply (Permutation_in _ (insert_by_perm x l)) in Hz. destruct Hz as [<-|Hz].
    + by apply key_lt_asym.
    + by apply Hy.
  - constructor; [by constructor|].
    constructor; [exact E|].
    rewrite List.Forall_forall in *. intros z Hz.
    apply in_order_trans with y; [exact E | by apply Hy].
Qed.

Lemma sorted_in_order (l : list A) : StronglySorted (in_order key) (sorted key l).
Proof.
  induction l; simpl; [constructor | by apply insert_by_sorted].
Qed.

(** Elements of equal key keep their relative order. *)
Lemma insert_by_class (k : Z * Z) (x : A) (l : list A) :
  List.filter (has_key key k) (insert_by key x l) = List.filter (has_key key k) (x :: l).
Proof.
  induction l as [|y l IH]; [reflexivity|].
  simpl insert_by. destruct (key_lt (key y) (key x)) eqn:E; [|reflexivity].
  simpl in *. rewrite IH.
  destruct (has_key key k x) eqn:Qx, (has_key key k y) eqn:Qy; try reflexivity.
  exfalso. unfold has_key, key_lt in *.
  destruct (key x), (key y), k; simpl in *. lia.
Qed.

Lemma sorted_stable (k : Z * Z) (l : list A) :
  List.filter (has_key key k) (sorted key l) = List.filter (has_key key k) l.
Proof.
  induction l as [|x l IH]; [reflexivity|].
  simpl sorted. rewrite insert_by_class. simpl. by rewrite IH.
Qed.

(** A list whose keys are all equal is left as it is. *)
Lemma sorted_same_key (k : Z * Z) (l : list A) :
  (forall a, In a l -> key a = k) -> sorted key l = l.
Proof.
  induction l as [|x l IH]; intros Hk; [reflexivity|].
  simpl. rewrite IH by (intros; apply Hk; by right).
  destruct l as [|y l]; [reflexivity|]. simpl.
  rewrite (Hk x), (Hk y) by (simpl; auto). by rewrite key_lt_irrefl.
Qed.

Lemma insert_by_app_l (x : A) (l1 l2 : list A) :
  (forall y, In y l2 -> key_lt (key y) (key x) = false) ->
  insert_by key x (l1 ++ l2) = insert_by key x l1 ++ l2.
Proof.
  intros H2. induction l1 as [|a l1 IH]; simpl.
  - destruct l2 as [|y l2]; [reflexivity|]. simpl.
    by rewrite H2 by (by left).
  - destruct (key_lt (key a) (key x)); [by rewrite IH | reflexivity].
Qed.

Lemma insert_by_app_r (x : A) (l1 l2 : list A) :
  (forall y, In y l1 -> key_lt (key y) (key x) = true) ->
  insert_by key x (l1 ++ l2) = l1 ++ insert_by key x l2.
Proof.
  induction l1 as [|a l1 IH]; intros H1; [reflexivity|]. simpl.
  rewrite H1 by (by left). rewrite IH; [reflexivity|].
  intros; apply H1; by right.
Qed.

(** A property that puts its elements before all the others splits the
    sort in two. *)
Lemma sorted_split (p : A -> bool) (l : list A) :
  (forall a b, In a l -> In b l -> p a = true -> p b = false ->
               key_lt (key a) (key b) = true) ->
  sorted key l =
    sorted key (List.filter p l) ++ sorted key (List.filter (fun a => negb (p a)) l).
Proof.
  induction l as [|x l IH]; intros Hp; [reflexivity|].
  simpl sorted at 1. rewrite IH by (intros; apply Hp; simpl; auto).
  simpl List.filter.
  destruct (p x) eqn:Px; simpl.
  - apply insert_by_app_l. intros y Hy.
    apply sorted_In, filter_In in Hy. destruct Hy as [Hin Hy].
    apply key_lt_asym, Hp; simpl; auto. by destruct (p y).
  - apply insert_by_app_r. intros y Hy.
    apply sorted_In, filter_In in Hy. destruct Hy as [Hin Hy].
    apply Hp; simpl; auto.
Qed.
End SortedFacts.

Lemma insert_by_ext {A} (key1 key2 : A -> Z * Z) (x : A) (l : list A) :
  key1 x = key2 x -> (forall a, In a l -> key1 a = key2 a) ->
  insert_by key1 x l = insert_by key2 x l.
Proof.
  intros Hx. induction l as [|y l IH]; intros Hl; [reflexivity|]. simpl.
  rewrite <- Hx, <- (Hl y) by (by left).
  destruct (key_lt (key1 y) (key1 x)); [|reflexivity].
  f_equal. apply IH. intros; apply Hl; by right.
Qed.

Lemma sorted_ext {A} (key1 key2 : A -> Z * Z) (l : list A) :
  (forall a, In a l -> key1 a = key2 a) -> sorted key1 l = sorted key2 l.
Proof.
  induction l as [|x l IH]; intros Hk; [reflexivity|].
  simpl. rewrite <- IH by (intros; apply Hk; by right).
  apply insert_by_ext; [apply Hk; by left|].
  intros a Ha. apply Hk. right. by apply sorted_In in Ha.
Qed.

(** ** Profile ordering *)

Lemma profile_sort_key_cases (dirname : string) :
  profile_sort_key dirname =
    if is_default dirname then (0, 0)
    else match trailing_int dirname with
         | Some n => (1, n)
         | None => (2, 0)
         end.
Proof.
  unfold profile_sort_key, trailing_int, is_default.
  destruct (String.eqb dirname "Default"); [reflexivity|].
  by destruct (res_bind _ _).
Qed.

Lemma digit_not_space (c : ascii) (d : Z) :
  digit_value c = Some d -> is_space c = false.
Proof.
  destruct c as [[] [] [] [] [] [] [] []]; vm_compute; congruence.
Qed.

Lemma digit_not_sign (c : ascii) (d : Z) :
  digit_value c = Some d -> Ascii.eqb c "-" = false /\ Ascii.eqb c "+" = false.
Proof.
  destruct c as [[] [] [] [] [] [] [] []]; vm_compute; intuition congruence.
Qed.

Lemma append_cons (c : ascii) (t s : string) :
  String c t +:+ s = String c (t +:+ s).
Proof. reflexivity. Qed.

Lemma append_empty (t : string) : t +:+ "" = t.
Proof.
  induction t as [|c t IH]; [reflexivity | by rewrite append_cons, IH].
Qed.

Lemma append_snoc (t s : string) (c : ascii) :
  (t +:+ String c EmptyString) +:+ s = t +:+ String c s.
Proof.
  induction t as [|x t IH]; [reflexivity | by rewrite !append_cons, IH].
Qed.

Lemma split_from_digits (s : string) (t : string) :
  all_digits (list_ascii_of_string s) = true ->
  split_from s (Some t) = [t +:+ s].
Proof.
  revert t. induction s as [|c s IH]; intros t Hs; simpl in *.
  - by rewrite append_empty.
  - apply andb_prop in Hs as [Hc Hs].
    destruct (digit_value c) as [d|] eqn:Ed; [|discriminate].
    rewrite (digit_not_space c d Ed), IH by exact Hs.
    by rewrite append_snoc.
Qed.

Lemma int_digits_all (cs : list ascii) (acc : Z) (count : nat) :
  all_digits cs = true ->
  int_digits cs acc count true =
    Some (fold_left (fun a c => 10 * a + match digit_value c with Some d => d | None => 0 end) cs acc,
          (count + List.length cs)%nat).
Proof.
  revert acc count. induction cs as [|c cs IH]; intros acc count Hcs; simpl in *.
  - by rewrite Nat.add_0_r.
  - apply andb_prop in Hcs as [Hc Hcs].
    destruct (digit_value c) as [d|]; [|discriminate].
    rewrite IH by exact Hcs. do 2 f_equal. lia.
Qed.

Lemma py_int_digits (s : string) :
  decimal_digits s = true -> (String.length s <= int_max_str_digits)%nat ->
  py_int s = Ret (digits_number s).
Proof.
  unfold decimal_digits, py_int, digits_number. intros Hs Hlen.
  apply andb_prop in Hs as [Hne Hs].
  destruct s as [|c s]; [discriminate|]. simpl in *.
  apply andb_prop in Hs as [Hc Hs].
  destruct (digit_value c) as [d|] eqn:Ed; [|discriminate].
  destruct (digit_not_sign c d Ed) as [-> ->]. simpl. rewrite Ed.
  rewrite int_digits_all by exact Hs.
  assert (List.length (list_ascii_of_string s) = String.length s) as ->.
  { clear. induction s; simpl; congruence. }
  destruct (Nat.ltb_spec int_max_str_digits (1 + String.length s)); [lia|].
  reflexivity.
Qed.

(** Every name [Profile <N>] has the key [(1, N)]. *)
Lemma profile_sort_key_numbered (digits : string) :
  decimal_digits digits = true ->
  (String.length digits <= int_max_str_digits)%nat ->
  profile_sort_key ("Profile " +:+ digits) = (1, digits_number digits).
Proof.
  intros Hd Hlen. unfold profile_sort_key, py_split.
  rewrite !append_cons. change ("" +:+ digits) with digits. simpl.
  assert (Hall : all_digits (list_ascii_of_string digits) = true).
  { unfold decimal_digits in Hd. by apply andb_prop in Hd as [_ ?]. }
  destruct digits as [|c s]; [discriminate|].
  simpl in Hall. apply andb_prop in Hall as [Hc Hs].
  destruct (digit_value c) as [d|] eqn:Ed; [|discriminate].
  simpl. rewrite (digit_not_space c d Ed).
  rewrite split_from_digits by exact Hs. simpl.
  by rewrite py_int_digits.
Qed.

Section Listing.
Context `{Runtime}.

Lemma list_profiles_directories (info_cache : list (string * json))
  (current_email : json) (dirs : list string) (i : Z) (profiles : list json)
  (current_index : json) (w w' : world) (listed : list json * json) :
  list_profiles info_cache current_email dirs i profiles current_index w
    = (Ret listed, w') ->
  map profile_directory (fst listed) =
    map profile_directory profiles ++ map (fun d => Some (JStr d)) dirs.
Proof.
  revert i profiles current_index w.
  induction dirs as [|dirname dirs IH]; intros i profiles current_index w.
  - simpl. unfold ret. intros [= <- _]. simpl. by rewrite app_nil_r.
  - simpl. unfold bind, lift, read_avatar_base64.
    destruct (py_getitem info_cache dirname) as [info|]; [|discriminate].
    destruct (py_get info "user_name" _) as [user_name|]; [|discriminate].
    destruct (py_get info "name" _) as [name|]; [|discriminate].
    destruct (py_get info "profile_highlight_color" _) as [color|]; [|discriminate].
    destruct (highlight_color_to_hex color) as [highlight|]; [|discriminate].
    intros Hrest. apply IH in Hrest. rewrite Hrest.
    rewrite map_app, <- app_assoc. reflexivity.
Qed.

(** What a successful listing was computed from. *)
Lemma get_profiles_inv (current_email : json) (w w' : world) (r : json)
  (ps : list json) :
  get_profiles current_email w = (Ret r, w') ->
  result_field r "profiles" = Some (JArr ps) ->
  exists (local_state profile : json) (info_cache : list (string * json)),
    fst (read_local_state w) = Ret local_state /\
    py_get local_state "profile" (JObj []) = Ret profile /\
    py_get profile "info_cache" (JObj []) = Ret (JObj info_cache) /\
    map profile_directory ps =
      map (fun d => Some (JStr d)) (sorted profile_sort_key (map fst info_cache)).
Proof.
  unfold get_profiles, bind, try_except, ret, lift, raise.
  destruct (read_local_state w) as [[local_state|e] w1] eqn:Eread.
  2:{ destruct (is_OSError e || is_JSONDecodeError e); [|discriminate].
      intros [= <- _]. discriminate. }
  destruct (py_get local_state "profile" _) as [profile|] eqn:Eprofile; [|discriminate].
  destruct (py_get profile "info_cache" _) as [info_cache|] eqn:Ecache; [|discriminate].
  destruct (py_truthy info_cache); simpl; [|intros [= <- _]; discriminate].
  destruct info_cache as [| | | | |d]; try discriminate.
  destruct (list_profiles _ _ _ _ _ _ _) as [[listed|] w2] eqn:Elist; [|discriminate].
  intros [= <- _]. simpl. intros [= <-].
  exists local_state, profile, d. repeat split; try done.
  by apply list_profiles_directories in Elist.
Qed.
End Listing.

Lemma filter_filter_default (q : string -> bool) (dirs : list string) :
  (forall a, q a = true -> is_default a = false) ->
  List.filter q (List.filter (fun a => negb (is_default a)) dirs) = List.filter q dirs.
Proof.
  intros Hq. induction dirs as [|a dirs IH]; [reflexivity|]. simpl.
  destruct (is_default a) eqn:Ea; simpl.
  - destruct (q a) eqn:Qa; [|exact IH]. apply Hq in Qa. congruence.
  - by rewrite IH.
Qed.

(** The three groups of the sorted names. *)
Lemma profile_keys_order (dirs : list string) :
  sorted profile_sort_key dirs =
    List.filter is_default dirs
    ++ sorted profile_sort_key (List.filter is_numbered dirs)
    ++ List.filter is_unnumbered dirs.
Proof.
  rewrite (sorted_split profile_sort_key is_default).
  2:{ intros a b _ _ Ha Hb. rewrite !profile_sort_key_cases, Ha, Hb.
      by destruct (trailing_int b). }
  rewrite (sorted_same_key profile_sort_key (0, 0) (List.filter is_default dirs)).
  2:{ intros a Ha. apply filter_In in Ha as [_ Ha].
      by rewrite profile_sort_key_cases, Ha. }
  f_equal.
  set (rest := List.filter (fun a => negb (is_default a)) dirs).
  assert (Hrest : forall a, In a rest -> is_default a = false).
  { intros a Ha. apply filter_In in Ha as [_ Ha]. by destruct (is_default a). }
  rewrite (sorted_split profile_sort_key is_numbered rest).
  2:{ intros a b Ha Hb Na Nb. rewrite !profile_sort_key_cases.
      unfold is_numbered in *. rewrite (Hrest a Ha) in *. rewrite (Hrest b Hb) in *.
      simpl in *. destruct (trailing_int a); [|discriminate].
      by destruct (trailing_int b). }
  unfold rest. rewrite (filter_filter_default is_numbered).
  2:{ unfold is_numbered. intros a. by destruct (is_default a). }
  f_equal.
  assert (Hsame : List.filter (fun a => negb (is_numbered a))
                    (List.filter (fun a => negb (is_default a)) dirs)
                  = List.filter is_unnumbered dirs).
  { clear. induction dirs as [|a dirs IH]; [reflexivity|]. simpl.
    destruct (is_default a) eqn:Ea; simpl.
    - assert (is_unnumbered a = false) as ->; [|exact IH].
      unfold is_unnumbered. by rewrite Ea.
    - assert (negb (is_numbered a) = is_unnumbered a) as ->.
      { unfold is_numbered, is_unnumbered. rewrite Ea.
        by destruct (trailing_int a). }
      by rewrite IH. }
  rewrite Hsame.
  apply (sorted_same_key profile_sort_key (2, 0)).
  intros a Ha. apply filter_In in Ha as [_ Ha].
  rewrite profile_sort_key_cases. unfold is_unnumbered in Ha.
  destruct (is_default a); [discriminate|]. simpl in Ha.
  by destruct (trailing_int a).
Qed.

Lemma numbered_in_order (a b : string) :
  is_numbered a = true -> is_numbered b = true ->
  in_order profile_sort_key a b -> ascending a b.
Proof.
  unfold is_numbered, in_order, ascending. rewrite !profile_sort_key_cases.
  destruct (is_default a), (is_default b); try discriminate. simpl.
  intros _ _ Hle m n Hm Hn. rewrite Hm, Hn in Hle.
  unfold key_lt in Hle. simpl in Hle. lia.
Qed.

Lemma has_number_key (n : Z) (dirname : string) :
  has_number n dirname = has_key profile_sort_key (1, n) dirname.
Proof.
  unfold has_number, has_key. rewrite profile_sort_key_cases.
  destruct (is_default dirname); [reflexivity|].
  destruct (trailing_int dirname); reflexivity.
Qed.

(** C1, as the code has it. A successful [get_profiles] lists the
    directories of the registry in three groups: [Default]; then every
    other name whose last space-separated token [int] reads, which includes
    the names [Profile <N>], by ascending value of that integer, names of
    equal value in their original order; then the remaining names in their
    original order. *)
Theorem get_profiles_order `{Runtime} (current_email : json) (w w' : world)
  (r : json) (ps : list json) :
  get_profiles current_email w = (Ret r, w') ->
  result_field r "profiles" = Some (JArr ps) ->
  exists (local_state profile : json) (info_cache : list (string * json))
         (numbered : list string),
    fst (read_local_state w) = Ret local_state /\
    py_get local_state "profile" (JObj []) = Ret profile /\
    py_get profile "info_cache" (JObj []) = Ret (JObj info_cache) /\
    let keys := map fst info_cache in
    map profile_directory ps =
      map (fun d => Some (JStr d))
        (List.filter is_default keys ++ numbered ++ List.filter is_unnumbered keys) /\
    Permutation numbered (List.filter is_numbered keys) /\
    StronglySorted ascending numbered /\
    (forall n : Z,
        List.filter (has_number n) numbered = List.filter (has_number n) keys) /\
    (forall digits : string,
        decimal_digits digits = true ->
        (String.length digits <= int_max_str_digits)%nat ->
        is_numbered ("Profile " +:+ digits) = true /\
        trailing_int ("Profile " +:+ digits) = Some (digits_number digits)) /\
    sorted profile_sort_key ["Profile 10"; "Default"; "Profile 2"; "Custom"]
      = ["Default"; "Profile 2"; "Profile 10"; "Custom"].
Proof.
  intros Hget Hps.
  destruct (get_profiles_inv current_email w w' r ps Hget Hps)
    as (local_state & profile & info_cache & Hread & Hprofile & Hcache & Hdirs).
  exists local_state, profile, info_cache,
    (sorted profile_sort_key (List.filter is_numbered (map fst info_cache))).
  do 3 (split; [done|]). cbv zeta.
  split; [|split; [|split; [|split; [|split; [|reflexivity]]]]].
  - by rewrite Hdirs, profile_keys_order.
  - apply sorted_perm.
  - set (l := List.filter is_numbered (map fst info_cache)).
    assert (Hl : List.Forall (fun a => is_numbered a = true) (sorted profile_sort_key l)).
    { apply List.Forall_forall. intros a Ha. apply sorted_In in Ha.
      by apply filter_In in Ha as [_ ?]. }
    pose proof (sorted_in_order profile_sort_key l) as Hs.
    induction Hs as [|a s Hs IH Ha]; [constructor|].
    inversion Hl as [|? ? Na Ns]; subst.
    constructor; [by apply IH|].
    rewrite List.Forall_forall in *. intros b Hb.
    apply numbered_in_order; auto.
  - intros n.
    rewrite (filter_ext _ _ (has_number_key n)).
    rewrite sorted_stable.
    rewrite <- (filter_ext _ _ (has_number_key n)).
    generalize (map fst info_cache). clear. intros keys.
    induction keys as [|a keys IH]; [reflexivity|]. simpl.
    destruct (is_numbered a) eqn:Na; simpl; [by rewrite IH|].
    assert (has_number n a = false) as ->; [|exact IH].
    unfold is_numbered, has_number in *.
    destruct (is_default a); [reflexivity|].
    by destruct (trailing_int a).
  - intros digits Hdigits Hlen.
    pose proof (profile_sort_key_numbered digits Hdigits Hlen) as Hk.
    rewrite profile_sort_key_cases in Hk. unfold is_numbered.
    destruct (is_default _); [discriminate|].
    destruct (trailing_int _); [split; [reflexivity | congruence] | discriminate].
Qed.

Section OrderingExamples.
#[local] Existing Instance Reference.runtime.

Lemma get_profiles_order_witness :
  exists (local_state profile : json) (info_cache : list (string * json))
         (numbered : list string),
    fst (read_local_state (registry_world four_profiles)) = Ret local_state /\
    py_get local_state "profile" (JObj []) = Ret profile /\
    py_get profile "info_cache" (JObj []) = Ret (JObj info_cache) /\
    let keys := map fst info_cache in
    map profile_directory four_profiles_listed =
      map (fun d => Some (JStr d))
        (List.filter is_default keys ++ numbered ++ List.filter is_unnumbered keys) /\
    Permutation numbered (List.filter is_numbered keys) /\
    StronglySorted ascending numbered /\
    (forall n : Z,
        List.filter (has_number n) numbered = List.filter (has_number n) keys) /\
    (forall digits : string,
        decimal_digits digits = true ->
        (String.length digits <= int_max_str_digits)%nat ->
        is_numbered ("Profile " +:+ digits) = true /\
        trailing_int ("Profile " +:+ digits) = Some (digits_number digits)) /\
    sorted profile_sort_key ["Profile 10"; "Default"; "Profile 2"; "Custom"]
      = ["Default"; "Profile 2"; "Profile 10"; "Custom"].
Proof.
  apply (get_profiles_order JNull (registry_world four_profiles)
           (registry_world four_profiles) four_profiles_result).
  - vm_compute. reflexivity.
  - reflexivity.
Defined.

(** The registry of the interface's example lists in the order the
    interface gives. *)
Example four_profiles_listing :
  listed_directories (get_profiles JNull (registry_world four_profiles))
  = Some [Some (JStr "Default"); Some (JStr "Profile 2");
          Some (JStr "Profile 10"); Some (JStr "Custom")].
Proof. vm_compute. reflexivity. Qed.

(** C1, as worded, fails: [Custom 3] is not of the form [Profile <N>], yet
    it is listed before [Profile 10]. *)
Lemma get_profiles_order_counterexample :
  listed_directories
    (get_profiles JNull
       (registry_world [("Profile 10", JObj []); ("Custom 3", JObj [])]))
  = Some [Some (JStr "Custom 3"); Some (JStr "Profile 10")] /\
  stated_order ["Profile 10"; "Custom 3"] = ["Profile 10"; "Custom 3"].
Proof. split; vm_compute; reflexivity. Qed.

End OrderingExamples.

(** On names that the two readings give the same key, such as [Default],
    [Profile <N>] and the names without a trailing integer, the listing is
    in the order the interface words. *)
Lemma get_profiles_order_agrees `{Runtime} (current_email : json)
  (w w' : world) (r : json) (ps : list json) :
  get_profiles current_email w = (Ret r, w') ->
  result_field r "profiles" = Some (JArr ps) ->
  exists (local_state profile : json) (info_cache : list (string * json)),
    fst (read_local_state w) = Ret local_state /\
    py_get local_state "profile" (JObj []) = Ret profile /\
    py_get profile "info_cache" (JObj []) = Ret (JObj info_cache) /\
    ((forall d, In d (map fst info_cache) -> stated_sort_key d = profile_sort_key d) ->
     map profile_directory ps =
       map (fun d => Some (JStr d)) (stated_order (map fst info_cache))).
Proof.
  intros Hget Hps.
  destruct (get_profiles_inv current_email w w' r ps Hget Hps)
    as (local_state & profile & info_cache & Hread & Hprofile & Hcache & Hdirs).
  exists local_state, profile, info_cache. do 3 (split; [done|]).
  intros Hsame. rewrite Hdirs. unfold stated_order.
  f_equal. symmetry. by apply sorted_ext.
Qed.


(** ** Signal mailbox *)

Section MailboxFacts.
Context `{Runtime}.

Lemma data_or_empty_dict (d : list (string * json)) :
  data_or_empty (JObj d) = JObj d.
Proof. by destruct d. Qed.

Lemma write_signal_run (p : string) (data : json) (w : world) :
  write_signal (JStr p) data w =
    (Ret tt,
     with_slots (insert p (encode_utf8 (json_dumps (data_or_empty data))))
       (with_signal_dir true w)).
Proof. reflexivity. Qed.

Lemma read_signal_absent (p : string) (w : world) :
  slots w !! p = None -> read_signal (JStr p) w = (Ret JNull, w).
Proof.
  intros Hp. unfold read_signal, bind, signal_path, ret, path_exists.
  by rewrite Hp.
Qed.

(** A slot whose bytes decode and parse is taken. *)
Lemma read_signal_present (p content : string) (document : text)
  (data : json) (w : world) :
  slots w !! p = Some content ->
  decode_utf8 content = Ret document ->
  json_loads document = Ret data ->
  read_signal (JStr p) w = (Ret data, with_slots (delete p) w).
Proof.
  intros Hp Hdecode Hloads.
  unfold read_signal, bind, signal_path, ret, path_exists, try_except,
    read_text, lift, unlink.
  rewrite Hp. simpl. rewrite Hp, Hdecode, Hloads. by rewrite Hp.
Qed.

(** A slot whose text is not JSON is cleared and reported as absent. *)
Lemma read_signal_corrupt_json (p content msg : string) (document : text)
  (w : world) :
  slots w !! p = Some content ->
  decode_utf8 content = Ret document ->
  json_loads document = Raise (JSONDecodeError msg) ->
  read_signal (JStr p) w = (Ret JNull, with_slots (delete p) w).
Proof.
  intros Hp Hdecode Hloads.
  unfold read_signal, bind, signal_path, ret, path_exists, try_except,
    read_text, lift, unlink.
  rewrite Hp. simpl. rewrite Hp, Hdecode, Hloads. simpl. by rewrite Hp.
Qed.

(** A slot whose bytes are not UTF-8 stays: the decoding error is
    neither an [OSError] nor a [JSONDecodeError]. *)
Lemma read_signal_undecodable (p content msg : string) (w : world) :
  slots w !! p = Some content ->
  decode_utf8 content = Raise (UnicodeDecodeError msg) ->
  read_signal (JStr p) w = (Raise (UnicodeDecodeError msg), w).
Proof.
  intros Hp Hdecode.
  unfold read_signal, bind, signal_path, ret, path_exists, try_except,
    read_text, lift, unlink.
  rewrite Hp. simpl. by rewrite Hp, Hdecode.
Qed.

Lemma write_then_read (p : string) (data : json) (w : world) :
  round_trips (data_or_empty data) ->
  bind (write_signal (JStr p) data) (fun _ => read_signal (JStr p)) w =
    (Ret (data_or_empty data), with_slots (delete p) (with_signal_dir true w)).
Proof.
  intros [Hdecode Hloads]. unfold bind at 1. rewrite write_signal_run.
  erewrite read_signal_present; [| apply lookup_insert_eq | exact Hdecode | exact Hloads].
  f_equal. destruct w; unfold with_slots, with_signal_dir; simpl.
  f_equal. apply delete_insert_eq.
Qed.
End MailboxFacts.

(** C5. For a name [p] of one path component and a payload [d] (a JSON
    object) that the codecs round-trip, [read_signal p] right after
    [write_signal p d] returns [d] and leaves no slot, and a second
    [read_signal p] returns [None]; likewise a write without payload is
    taken once, as the empty object. *)
Theorem take_after_write `{Runtime} (p : string) (d : list (string * json))
  (w : world) :
  path_component p = true ->
  round_trips (JObj d) ->
  round_trips (JObj []) ->
  (exists w1 : world,
      (write_signal (JStr p) (JObj d) ;; read_signal (JStr p)) w
        = (Ret (JObj d), w1) /\
      slots w1 !! p = None /\
      read_signal (JStr p) w1 = (Ret JNull, w1)) /\
  (exists w1 : world,
      (write_signal (JStr p) JNull ;; read_signal (JStr p)) w
        = (Ret (JObj []), w1) /\
      slots w1 !! p = None /\
      read_signal (JStr p) w1 = (Ret JNull, w1)).
Proof.
  intros _ Hd Hempty. split.
  - eexists. rewrite write_then_read by (by rewrite data_or_empty_dict).
    rewrite data_or_empty_dict.
    assert (Hgone : slots (with_slots (delete p) (with_signal_dir true w)) !! p = None)
      by apply lookup_delete_eq.
    split; [reflexivity|]. split; [exact Hgone | by apply read_signal_absent].
  - eexists. rewrite write_then_read by exact Hempty.
    assert (Hgone : slots (with_slots (delete p) (with_signal_dir true w)) !! p = None)
      by apply lookup_delete_eq.
    split; [reflexivity|]. split; [exact Hgone | by apply read_signal_absent].
Qed.

(** C6. Two writes to [p] followed by [read_signal p]: the second payload
    is returned, the slot is gone, and nothing is left for a later
    [read_signal p]. *)
Theorem last_write_wins `{Runtime} (p : string) (a b : list (string * json))
  (w : world) :
  path_component p = true ->
  round_trips (JObj b) ->
  exists w1 : world,
    (write_signal (JStr p) (JObj a) ;; write_signal (JStr p) (JObj b) ;;
     read_signal (JStr p)) w = (Ret (JObj b), w1) /\
    slots w1 !! p = None /\
    read_signal (JStr p) w1 = (Ret JNull, w1).
Proof.
  intros _ Hb. eexists.
  unfold bind at 1. rewrite write_signal_run.
  rewrite write_then_read by (by rewrite data_or_empty_dict).
  rewrite data_or_empty_dict.
  split; [reflexivity|].
  match goal with |- slots ?w1 !! p = None /\ _ =>
    assert (Hgone : slots w1 !! p = None) by apply lookup_delete_eq end.
  split; [exact Hgone | by apply read_signal_absent].
Qed.

Section MailboxExamples.
#[local] Existing Instance Reference.runtime.

Lemma take_after_write_witness :
  (exists w1 : world,
      (write_signal (JStr "Profile 1") (JObj [("url", JStr "https://example.org/")]) ;;
       read_signal (JStr "Profile 1")) quiet_world
        = (Ret (JObj [("url", JStr "https://example.org/")]), w1) /\
      slots w1 !! "Profile 1" = None /\
      read_signal (JStr "Profile 1") w1 = (Ret JNull, w1)) /\
  (exists w1 : world,
      (write_signal (JStr "Profile 1") JNull ;; read_signal (JStr "Profile 1"))
        quiet_world = (Ret (JObj []), w1) /\
      slots w1 !! "Profile 1" = None /\
      read_signal (JStr "Profile 1") w1 = (Ret JNull, w1)).
Proof.
  apply (take_after_write "Profile 1" [("url", JStr "https://example.org/")]
           quiet_world).
  - reflexivity.
  - split; reflexivity.
  - split; reflexivity.
Defined.

Lemma last_write_wins_witness :
  exists w1 : world,
    (write_signal (JStr "Profile 1") (JObj [("url", JStr "https://a.example/")]) ;;
     write_signal (JStr "Profile 1") (JObj [("url", JStr "https://b.example/")]) ;;
     read_signal (JStr "Profile 1")) quiet_world
      = (Ret (JObj [("url", JStr "https://b.example/")]), w1) /\
    slots w1 !! "Profile 1" = None /\
    read_signal (JStr "Profile 1") w1 = (Ret JNull, w1).
Proof.
  apply (last_write_wins "Profile 1" [("url", JStr "https://a.example/")]
           [("url", JStr "https://b.example/")] quiet_world).
  - reflexivity.
  - split; reflexivity.
Defined.

(** C4 on the code. The slot of [Profile 1] holds the byte 0xFF, which is
    not UTF-8 and so not JSON: [read_signal] raises [UnicodeDecodeError]
    instead of returning [None], and the slot is still there. *)
Theorem read_signal_undecodable_stays :
  read_signal (JStr "Profile 1") corrupt_world
    = (Raise (UnicodeDecodeError "'utf-8' codec can't decode bytes"), corrupt_world) /\
  slots corrupt_world !! "Profile 1" = Some (String "255"%char EmptyString).
Proof.
  split; [|reflexivity].
  apply read_signal_undecodable with (content := String "255"%char EmptyString);
    reflexivity.
Qed.

End MailboxExamples.

(** ** Waiting for consumption *)

Section WaitFacts.
Context `{Runtime}.

Lemma read_signal_clock (profile_dir : json) (w : world) :
  clock (snd (read_signal profile_dir w)) = clock w.
Proof.
  unfold read_signal, bind, signal_path, ret, raise, path_exists, try_except,
    read_text, lift, unlink.
  destruct profile_dir; simpl; try reflexivity.
  destruct (slots w !! s) eqn:Es; simpl; [|reflexivity].
  rewrite Es.
  destruct (decode_utf8 s0) as [document|e]; simpl.
  - destruct (json_loads document) as [data|e]; simpl.
    + by rewrite Es.
    + destruct (is_OSError e || is_JSONDecodeError e); simpl; [|reflexivity].
      by rewrite Es.
  - destruct (is_OSError e || is_JSONDecodeError e); simpl; [|reflexivity].
    by rewrite Es.
Qed.

Lemma signal_watcher_poll_clock (profile_dir : json) (w : world) :
  clock (snd (signal_watcher_poll profile_dir w)) = clock w.
Proof.
  unfold signal_watcher_poll, bind.
  pose proof (read_signal_clock profile_dir w) as Hclock.
  destruct (read_signal profile_dir w) as [[signal|e] w1]; simpl in *; [|done].
  destruct signal; simpl; try done;
    unfold lift, py_get, send_message; simpl; try done.
  destruct (py_truthy _); done.
Qed.

Lemma apply_event_clock (ev : peer_event) (w : world) :
  clock (apply_event ev w) = clock w.
Proof.
  destruct ev as [p|p content]; simpl; [|reflexivity].
  apply (signal_watcher_poll_clock (JStr p) (with_stdout [] w)).
Qed.

Lemma events_clock (evs : list (Z * peer_event)) (w : world) :
  clock (foldl (fun w ev => apply_event (snd ev) w) w evs) = clock w.
Proof.
  revert w. induction evs as [|ev evs IH]; intros w; simpl; [reflexivity|].
  by rewrite IH, apply_event_clock.
Qed.

(** A sleep lasts at least as long as asked. *)
Lemma sleep_clock (d : Z) (w : world) :
  clock w + d <= clock (snd (sleep d w)).
Proof.
  unfold sleep. simpl. rewrite events_clock. simpl.
  destruct (oversleep w); lia.
Qed.

Lemma after_sleeps_S (k : nat) (w : world) :
  after_sleeps (S k) w = after_sleeps k (snd (sleep 100 w)).
Proof. reflexivity. Qed.

Lemma after_sleeps_clock (k : nat) (w : world) :
  clock w <= clock (after_sleeps k w).
Proof.
  revert w. induction k as [|k IH]; intros w; [simpl; lia|].
  rewrite after_sleeps_S.
  specialize (IH (snd (sleep 100 w))).
  pose proof (sleep_clock 100 w). lia.
Qed.

Lemma timed_out_run (name : string) (w : world) :
  exists w' : world,
    timed_out name w = (Ret false, w') /\ slots w' !! name = None.
Proof.
  unfold timed_out, bind, try_except, unlink, ret.
  destruct (slots w !! name) eqn:Es; simpl.
  - eexists. split; [reflexivity|]. apply lookup_delete_eq.
  - eexists. split; [reflexivity|]. exact Es.
Qed.

(** The loop with enough fuel: it returns, [True] exactly when some poll
    made before the deadline finds no slot, and after [False] the slot
    is gone. *)
Lemma wait_loop_spec (fuel : nat) (name : string) (deadline : Z) (w : world) :
  deadline - clock w <= 100 * Z.of_nat fuel ->
  exists (b : bool) (w' : world),
    wait_loop fuel name deadline w = (Ret b, w') /\
    (b = true <->
     exists k : nat,
       clock (after_sleeps k w) < deadline /\
       slots (after_sleeps k w) !! name = None) /\
    (b = false -> slots w' !! name = None).
Proof.
  revert w. induction fuel as [|fuel IH]; intros w Hfuel.
  - assert (Hlate : (clock w <? deadline) = false) by lia.
    simpl. unfold bind, monotonic. rewrite Hlate.
    destruct (timed_out_run name w) as (w' & -> & Hgone).
    exists false, w'. split; [reflexivity|]. split; [|done].
    split; [discriminate|]. intros (k & Hk & _).
    pose proof (after_sleeps_clock k w). lia.
  - simpl. unfold bind at 1, monotonic.
    destruct (clock w <? deadline) eqn:Hnow.
    + unfold bind at 1, path_exists.
      destruct (slots w !! name) eqn:Es; simpl.
      * unfold bind at 1.
        destruct (sleep 100 w) as [[[]|e] w1] eqn:Esleep;
          [|unfold sleep in Esleep; discriminate].
        pose proof (sleep_clock 100 w) as Hclock. rewrite Esleep in Hclock.
        simpl in Hclock.
        destruct (IH w1) as (b & w' & Hrun & Hb & Hgone); [lia|].
        exists b, w'. split; [exact Hrun|]. split; [|exact Hgone].
        rewrite Hb. split.
        -- intros (k & Hk). exists (S k). by rewrite after_sleeps_S, Esleep.
        -- intros (k & Hk & Hk'). destruct k as [|k].
           ++ simpl in Hk'. congruence.
           ++ exists k. by rewrite after_sleeps_S, Esleep in Hk, Hk'.
      * exists true, w. split; [reflexivity|]. split; [|discriminate].
        split; [|done]. intros _. exists O. simpl. split; [lia | exact Es].
    + destruct (timed_out_run name w) as (w' & -> & Hgone).
      exists false, w'. split; [reflexivity|]. split; [|done].
      split; [discriminate|]. intros (k & Hk & _).
      pose proof (after_sleeps_clock k w). lia.
Qed.

(** The cut of [wait_loop] is not reached: more fuel changes nothing. *)
Lemma wait_loop_fuel (fuel : nat) (name : string) (deadline : Z) (w : world) :
  deadline - clock w <= 100 * Z.of_nat fuel ->
  wait_loop (S fuel) name deadline w = wait_loop fuel name deadline w.
Proof.
  revert w. induction fuel as [|fuel IH]; intros w Hfuel.
  - assert (Hlate : (clock w <? deadline) = false) by lia.
    simpl. unfold bind, monotonic. by rewrite Hlate.
  - change (wait_loop (S (S fuel)) name deadline w) with
      ((now <- monotonic ;;
        if now <? deadline then
          present <- path_exists name ;;
          if negb present then ret true
          else sleep 100 ;; wait_loop (S fuel) name deadline
        else timed_out name) w).
    change (wait_loop (S fuel) name deadline w) with
      ((now <- monotonic ;;
        if now <? deadline then
          present <- path_exists name ;;
          if negb present then ret true
          else sleep 100 ;; wait_loop fuel name deadline
        else timed_out name) w).
    unfold bind at 1 4, monotonic.
    destruct (clock w <? deadline) eqn:Hnow; [|reflexivity].
    unfold bind at 1 3, path_exists.
    destruct (slots w !! name); simpl; [|reflexivity].
    unfold bind.
    pose proof (sleep_clock 100 w) as Hclock.
    destruct (sleep 100 w) as [[[]|e] w1]; [|reflexivity].
    simpl in Hclock. apply IH. lia.
Qed.
End WaitFacts.

(** C2, as the code has it. [wait_for_signal_consumed p t] always returns;
    it returns [True] exactly when one of its polls, made on entry and
    after each sleep of a tenth of a second or more while the monotonic
    clock reads less than the entry time plus [t], finds no slot for [p];
    and when it returns [False] the slot for [p] does not exist, whatever
    was there before. *)
Theorem wait_for_signal_consumed_spec `{Runtime} (p : string) (timeout : Z)
  (w : world) :
  path_component p = true ->
  exists (b : bool) (w' : world),
    wait_for_signal_consumed (JStr p) timeout w = (Ret b, w') /\
    (b = true <->
     exists k : nat,
       clock (after_sleeps k w) < clock w + timeout /\
       slots (after_sleeps k w) !! p = None) /\
    (b = false -> slots w' !! p = None).
Proof.
  intros _. unfold wait_for_signal_consumed, bind, signal_path, ret, monotonic.
  apply wait_loop_spec.
  pose proof (Z.mod_pos_bound timeout 100 ltac:(lia)).
  pose proof (Z.div_mod timeout 100 ltac:(lia)). lia.
Qed.

Section WaitExamples.
#[local] Existing Instance Reference.runtime.

Lemma wait_for_signal_consumed_spec_witness :
  exists (b : bool) (w' : world),
    wait_for_signal_consumed (JStr "Profile 1") 2000 late_take_world = (Ret b, w') /\
    (b = true <->
     exists k : nat,
       clock (after_sleeps k late_take_world) < clock late_take_world + 2000 /\
       slots (after_sleeps k late_take_world) !! "Profile 1" = None) /\
    (b = false -> slots w' !! "Profile 1" = None).
Proof.
  apply (wait_for_signal_consumed_spec "Profile 1" 2000 late_take_world).
  reflexivity.
Defined.

(** C2, as worded, fails: the slot of [Profile 1] is taken 1950 ms into a
    wait of 2000 ms, between the last poll (at 1900 ms) and the deadline,
    and the wait returns [False]. *)
Lemma wait_for_signal_consumed_counterexample :
  fst (wait_for_signal_consumed (JStr "Profile 1") 2000 late_take_world)
    = Ret false /\
  slots_at 1950 late_take_world !! "Profile 1" = None /\
  ~ stated_wait "Profile 1" 2000 late_take_world.
Proof.
  assert (Hrun : fst (wait_for_signal_consumed (JStr "Profile 1") 2000 late_take_world)
                 = Ret false) by (vm_compute; reflexivity).
  assert (Hgone : slots_at 1950 late_take_world !! "Profile 1" = None)
    by (vm_compute; reflexivity).
  split; [exact Hrun|]. split; [exact Hgone|].
  intros Hstated.
  destruct (wait_for_signal_consumed (JStr "Profile 1") 2000 late_take_world)
    as [r w'] eqn:Ewait.
  simpl in Hrun. subst r.
  destruct (Hstated false w' Ewait) as [_ Hback].
  discriminate Hback.
  exists 1950. split; [|exact Hgone]. simpl. lia.
Qed.

End WaitExamples.

(** ** What the handlers leave alone *)

Section Frame.
Context `{Runtime} {X : Type} (proj : world -> X).

(** [proj] reads a part of the machine that files, time, processes and
    peers do not touch. *)
Hypothesis proj_slots : forall f w, proj (with_slots f w) = proj w.
Hypothesis proj_signal_dir : forall b w, proj (with_signal_dir b w) = proj w.
Hypothesis proj_time : forall now late todo w, proj (with_time now late todo w) = proj w.
Hypothesis proj_popen : forall faults procs w, proj (with_popen faults procs w) = proj w.
Hypothesis proj_event : forall ev w, proj (apply_event ev w) = proj w.

Lemma keeps_ret {A} (a : A) : keeps proj (ret a).
Proof. by intros w. Qed.

Lemma keeps_raise {A} (e : exn) : keeps proj (@raise A e).
Proof. by intros w. Qed.

Lemma keeps_lift {A} (r : res A) : keeps proj (lift r).
Proof. by intros w. Qed.

Lemma keeps_bind {A B} (m : M A) (k : A -> M B) :
  keeps proj m -> (forall a, keeps proj (k a)) -> keeps proj (bind m k).
Proof.
  intros Hm Hk w. unfold bind. specialize (Hm w).
  destruct (m w) as [[a|e] w1]; simpl in *; [|exact Hm].
  by rewrite Hk.
Qed.

Lemma keeps_try {A} (m : M A) (handled : exn -> bool) (h : exn -> M A) :
  keeps proj m -> (forall e, keeps proj (h e)) ->
  keeps proj (try_except m handled h).
Proof.
  intros Hm Hh w. unfold try_except. specialize (Hm w).
  destruct (m w) as [[a|e] w1]; simpl in *; [exact Hm|].
  destruct (handled e); simpl; [by rewrite Hh | exact Hm].
Qed.

Lemma keeps_signal_path (profile_dir : json) : keeps proj (signal_path profile_dir).
Proof. by destruct profile_dir. Qed.

Lemma keeps_mkdir : keeps proj mkdir_exist_ok.
Proof. intros w. apply proj_signal_dir. Qed.

Lemma keeps_path_exists (name : string) : keeps proj (path_exists name).
Proof. by intros w. Qed.

Lemma keeps_read_text (name : string) : keeps proj (read_text name).
Proof. intros w. unfold read_text. by destruct (slots w !! name). Qed.

Lemma keeps_write_text (name : string) (payload : text) :
  keeps proj (write_text name payload).
Proof.
  intros w. unfold write_text. destruct (signal_dir w); simpl; [|done].
  apply proj_slots.
Qed.

Lemma keeps_unlink (name : string) : keeps proj (unlink name).
Proof.
  intros w. unfold unlink. destruct (slots w !! name); simpl; [|done].
  apply proj_slots.
Qed.

Lemma keeps_monotonic : keeps proj monotonic.
Proof. by intros w. Qed.

Lemma keeps_Popen (args : list json) : keeps proj (Popen args).
Proof.
  intros w. unfold Popen. destruct (argv_of args); [|done].
  destruct (popen_faults w) as [|[msg|] faults]; simpl; apply proj_popen.
Qed.

Lemma keeps_read_avatar (profile_dir : string) :
  keeps proj (read_avatar_base64 profile_dir).
Proof. by intros w. Qed.

Lemma keeps_sleep (d : Z) : keeps proj (sleep d).
Proof.
  assert (Hfold : forall (evs : list (Z * peer_event)) (w1 : world),
             proj (foldl (fun w ev => apply_event (snd ev) w) w1 evs) = proj w1).
  { intros evs. induction evs as [|ev evs IH]; intros w1; simpl; [done|].
    by rewrite IH, proj_event. }
  intros w. unfold sleep. simpl.
  by rewrite Hfold, proj_time.
Qed.

Create HintDb keeps discriminated.
#[local] Hint Resolve keeps_ret keeps_raise keeps_lift keeps_signal_path
  keeps_mkdir keeps_path_exists keeps_read_text keeps_write_text keeps_unlink
  keeps_monotonic keeps_Popen keeps_read_avatar keeps_sleep : keeps.

Ltac keeps_step :=
  match goal with
  | |- keeps _ (bind _ _) => apply keeps_bind; [|intros ?]
  | |- keeps _ (try_except _ _ _) => apply keeps_try; [|intros ?]
  | |- keeps _ (if ?b then _ else _) => destruct b
  | |- keeps _ (match ?x with _ => _ end) => destruct x
  | |- keeps _ _ => solve [auto with keeps]
  end.

Lemma keeps_write_signal (profile_dir data : json) :
  keeps proj (write_signal profile_dir data).
Proof. unfold write_signal. repeat keeps_step. Qed.

Lemma keeps_read_signal (profile_dir : json) : keeps proj (read_signal profile_dir).
Proof. unfold read_signal. repeat keeps_step. Qed.

Lemma keeps_timed_out (name : string) : keeps proj (timed_out name).
Proof. unfold timed_out. repeat keeps_step. Qed.

#[local] Hint Resolve keeps_write_signal keeps_read_signal keeps_timed_out : keeps.

Lemma keeps_wait_loop (fuel : nat) (name : string) (deadline : Z) :
  keeps proj (wait_loop fuel name deadline).
Proof.
  induction fuel as [|fuel IH]; simpl; repeat keeps_step.
Qed.

#[local] Hint Resolve keeps_wait_loop : keeps.

Lemma keeps_wait (profile_dir : json) (timeout : Z) :
  keeps proj (wait_for_signal_consumed profile_dir timeout).
Proof. unfold wait_for_signal_consumed. repeat keeps_step. Qed.

Lemma keeps_activate_chrome : keeps proj activate_chrome.
Proof. apply keeps_Popen. Qed.

#[local] Hint Resolve keeps_wait keeps_activate_chrome : keeps.

Lemma keeps_launched (m : M unit) : keeps proj m -> keeps proj (launched m).
Proof. intros Hm. unfold launched. repeat keeps_step. Qed.

#[local] Hint Resolve keeps_launched : keeps.

Lemma keeps_switch_profile (profile_dir : json) :
  keeps proj (switch_profile profile_dir).
Proof. unfold switch_profile. repeat keeps_step. Qed.

Lemma keeps_open_url_in_profile (profile_dir url : json) :
  keeps proj (open_url_in_profile profile_dir url).
Proof. unfold open_url_in_profile. repeat keeps_step. Qed.

Lemma keeps_read_local_state : keeps proj read_local_state.
Proof. unfold read_local_state. repeat keeps_step. Qed.

#[local] Hint Resolve keeps_read_local_state : keeps.

Lemma keeps_list_profiles (info_cache : list (string * json))
  (current_email : json) (dirs : list string) (i : Z) (profiles : list json)
  (current_index : json) :
  keeps proj (list_profiles info_cache current_email dirs i profiles current_index).
Proof.
  revert i profiles current_index.
  induction dirs as [|dirname dirs IH]; intros i profiles current_index; simpl;
    repeat keeps_step.
Qed.

#[local] Hint Resolve keeps_list_profiles : keeps.

Lemma keeps_get_profiles (current_email : json) :
  keeps proj (get_profiles current_email).
Proof. unfold get_profiles. repeat keeps_step. Qed.
End Frame.

(** A peer only acts on the signal directory and on its own output. *)
Lemma apply_event_keeps `{Runtime} {X : Type} (proj : world -> X) :
  (forall f w, proj (with_slots f w) = proj w) ->
  (forall b w, proj (with_signal_dir b w) = proj w) ->
  (forall out w, proj (with_stdout out w) = proj w) ->
  (forall r w, proj (with_relayed r w) = proj w) ->
  forall (ev : peer_event) (w : world), proj (apply_event ev w) = proj w.
Proof.
  intros Hslots Hdir Hout Hrelayed ev w.
  destruct ev as [p|p content]; simpl; [|by rewrite Hdir, Hslots].
  assert (Hpoll : keeps proj (signal_watcher_poll (JStr p))).
  { unfold signal_watcher_poll. apply keeps_bind.
    - by apply keeps_read_signal.
    - intros signal. destruct signal; try (by intros w0).
      apply keeps_bind; [by intros w0|]. intros url.
      destruct (py_truthy url); intros w0; apply Hout. }
  by rewrite Hrelayed, Hout, (Hpoll (with_stdout [] w)), Hout.
Qed.

(** ** Activation *)

Lemma has_char_append (c : ascii) (a b : string) :
  has_char c (a +:+ b) = has_char c a || has_char c b.
Proof.
  induction a as [|x a IH]; [reflexivity|].
  rewrite append_cons. simpl. by rewrite IH, orb_assoc.
Qed.

Lemma path_component_nul (p : string) :
  path_component p = true -> has_char "000" p = false.
Proof.
  unfold path_component. intros Hp. apply andb_prop in Hp as [_ Hnul].
  by apply negb_true_iff in Hnul.
Qed.

Lemma argv_of_not_OSError (args : list json) (e : exn) :
  argv_of args = Raise e -> is_OSError e = false.
Proof.
  induction args as [|x args IH]; [discriminate|].
  destruct x as [| | |s| |]; simpl; try (by intros [= <-]).
  destruct (has_char "000" s); [by intros [= <-]|].
  destruct (argv_of args); [discriminate|]. intros [= <-]. by apply IH.
Qed.

Lemma argv_of_activate :
  argv_of [JStr "osascript"; JStr "-e";
           JStr ("tell application " +:+ double_quote +:+ "Google Chrome"
                 +:+ double_quote +:+ " to activate")]
    = Ret activate_argv.
Proof. reflexivity. Qed.



Section ActivationFacts.
Context `{Runtime}.

Lemma switch_profile_activation (profile_dir : json) :
  switch_profile profile_dir =
    activation profile_dir JNull
      [JStr CHROME_BIN; JStr ("--profile-directory=" +:+ py_format profile_dir)].
Proof. reflexivity. Qed.

Lemma open_url_in_profile_activation (profile_dir url : json) :
  open_url_in_profile profile_dir url =
    activation profile_dir (JObj [("url", url)])
      [JStr CHROME_BIN; JStr ("--profile-directory=" +:+ py_format profile_dir); url].
Proof. reflexivity. Qed.

Lemma activate_chrome_run (w : world) :
  hd None (popen_faults w) = None ->
  activate_chrome w =
    (Ret tt, with_popen (tail (popen_faults w)) (spawned w ++ [activate_argv]) w).
Proof.
  unfold activate_chrome, Popen. rewrite argv_of_activate.
  destruct (popen_faults w) as [|[msg|] faults]; simpl; intros Hok;
    [reflexivity | discriminate | reflexivity].
Qed.

(** The launch after a wait that timed out: an argument that cannot be
    converted raises, an [OSError] of the operating system becomes the
    [error] result. *)
Lemma launched_run (args : list json) (w : world) :
  launched (Popen args) w =
    match argv_of args with
    | Raise e => (Raise e, w)
    | Ret argv =>
        match hd None (popen_faults w) with
        | None =>
            (Ret by_launch,
             with_popen (tail (popen_faults w)) (spawned w ++ [argv]) w)
        | Some reason =>
            (Ret (launch_failed reason),
             with_popen (tail (popen_faults w)) (spawned w) w)
        end
    end.
Proof.
  unfold launched, try_except, bind, Popen, ret.
  destruct (argv_of args) as [argv|e] eqn:Hargs.
  - destruct (popen_faults w) as [|[msg|] faults]; reflexivity.
  - by rewrite (argv_of_not_OSError args e Hargs).
Qed.

Lemma activation_start (p : string) (data : json) (w : world) :
  hd None (popen_faults w) = None ->
  (activate_chrome ;; write_signal (JStr p) data) w
    = (Ret tt, signalled p (data_or_empty data) w).
Proof.
  intros Hok. unfold bind. rewrite activate_chrome_run by exact Hok.
  by rewrite write_signal_run.
Qed.

(** An activation up to the end of its wait. *)
Lemma activation_run (p : string) (data : json) (args : list json) (w : world) :
  hd None (popen_faults w) = None ->
  exists (consumed : bool) (w2 : world),
    wait_for_signal_consumed (JStr p) 2000 (signalled p (data_or_empty data) w)
      = (Ret consumed, w2) /\
    (consumed = true <->
     exists k : nat,
       clock (after_sleeps k (signalled p (data_or_empty data) w)) < clock w + 2000 /\
       slots (after_sleeps k (signalled p (data_or_empty data) w)) !! p = None) /\
    spawned w2 = spawned w ++ [activate_argv] /\
    popen_faults w2 = tail (popen_faults w) /\
    stdout w2 = stdout w /\
    activation (JStr p) data args w =
      if consumed then (Ret by_signal, w2) else launched (Popen args) w2.
Proof.
  intros Hok.
  set (w1 := signalled p (data_or_empty data) w).
  destruct (wait_loop_spec (Z.to_nat (2000 / 100 + 1)) p (clock w1 + 2000) w1)
    as (consumed & w2 & Hwait & Hpolls & _);
    [change (100 * Z.of_nat (Z.to_nat (2000 / 100 + 1))) with 2100; lia|].
  assert (Hwait' : wait_for_signal_consumed (JStr p) 2000 w1 = (Ret consumed, w2))
    by exact Hwait.
  exists consumed, w2. split; [exact Hwait'|]. split; [exact Hpolls|].
  split; [|split; [|split]].
  - pose proof (keeps_wait spawned ltac:(done) ltac:(done)
                  ltac:(by apply apply_event_keeps) (JStr p) 2000 w1) as Hkeep.
    by rewrite Hwait' in Hkeep.
  - pose proof (keeps_wait popen_faults ltac:(done) ltac:(done)
                  ltac:(by apply apply_event_keeps) (JStr p) 2000 w1) as Hkeep.
    by rewrite Hwait' in Hkeep.
  - pose proof (keeps_wait stdout ltac:(done) ltac:(done)
                  ltac:(by intros [] ?) (JStr p) 2000 w1) as Hkeep.
    by rewrite Hwait' in Hkeep.
  - unfold activation. unfold bind at 1.
    rewrite activate_chrome_run by exact Hok.
    unfold bind at 1. rewrite write_signal_run.
    fold (after_osascript w). fold (signalled p (data_or_empty data) w). fold w1.
    unfold bind at 1. rewrite Hwait'. by destruct consumed.
Qed.

Lemma activate_chrome_fails (w : world) (reason : string) :
  hd None (popen_faults w) = Some reason ->
  activate_chrome w = (Raise (OSError reason), after_osascript_failed w).
Proof.
  unfold activate_chrome, Popen, after_osascript_failed.
  rewrite argv_of_activate.
  destruct (popen_faults w) as [|[msg|] faults]; simpl; intros [= <-].
  reflexivity.
Qed.

Lemma activation_fails (profile_dir data : json) (args : list json) (w : world)
  (reason : string) :
  hd None (popen_faults w) = Some reason ->
  activation profile_dir data args w
    = (Raise (OSError reason), after_osascript_failed w).
Proof.
  intros Hfault. unfold activation. unfold bind at 1.
  by rewrite (activate_chrome_fails w reason Hfault).
Qed.
End ActivationFacts.

(** ** Results *)

Section ReturnFacts.
Context `{Runtime}.

Lemma returns_ret {A} (Q : A -> Prop) (a : A) : Q a -> returns Q (ret a).
Proof. intros Ha w w' a'. unfold ret. by intros [= <- _]. Qed.

Lemma returns_raise {A} (Q : A -> Prop) (e : exn) : returns Q (raise e).
Proof. intros w w' a. unfold raise. discriminate. Qed.

Lemma returns_bind {A B} (Q : B -> Prop) (m : M A) (k : A -> M B) :
  (forall a, returns Q (k a)) -> returns Q (bind m k).
Proof.
  intros Hk w w' b. unfold bind.
  destruct (m w) as [[a|e] w1]; [apply Hk | discriminate].
Qed.

Lemma returns_try {A} (Q : A -> Prop) (m : M A) (handled : exn -> bool)
  (h : exn -> M A) :
  returns Q m -> (forall e, returns Q (h e)) -> returns Q (try_except m handled h).
Proof.
  intros Hm Hh w w' a. unfold try_except.
  destruct (m w) as [[a'|e] w1] eqn:Em.
  - intros [= <- <-]. by eapply Hm.
  - destruct (handled e); [apply Hh | discriminate].
Qed.

Ltac returns_step :=
  match goal with
  | |- returns _ (bind _ _) => apply returns_bind; intros ?
  | |- returns _ (try_except _ _ _) => apply returns_try; [|intros ?]
  | |- returns _ (raise _) => apply returns_raise
  | |- returns _ (ret _) => apply returns_ret
  | |- returns _ (if ?b then _ else _) => destruct b
  | |- returns _ (match ?x with _ => _ end) => destruct x
  end.

Lemma unaddressed_intro (d : list (string * json)) :
  dict_get d "id" = None -> unaddressed (JObj d).
Proof. intros Hd. by exists d. Qed.

Lemma get_profiles_unaddressed (current_email : json) :
  returns unaddressed (get_profiles current_email).
Proof.
  unfold get_profiles. repeat returns_step; by apply unaddressed_intro.
Qed.

Lemma launched_unaddressed (m : M unit) : returns unaddressed (launched m).
Proof.
  unfold launched. repeat returns_step; by apply unaddressed_intro.
Qed.

Lemma switch_profile_unaddressed (profile_dir : json) :
  returns unaddressed (switch_profile profile_dir).
Proof.
  unfold switch_profile. repeat returns_step;
    [by apply unaddressed_intro | apply launched_unaddressed].
Qed.

Lemma open_url_in_profile_unaddressed (profile_dir url : json) :
  returns unaddressed (open_url_in_profile profile_dir url).
Proof.
  unfold open_url_in_profile. repeat returns_step;
    [by apply unaddressed_intro | apply launched_unaddressed].
Qed.
End ReturnFacts.

Lemma dict_get_set (d : list (string * json)) (k : string) (v : json) :
  dict_get (dict_set d k v) k = Some v.
Proof.
  induction d as [|[k' v'] d IH]; simpl.
  - by rewrite String.eqb_refl.
  - destruct (String.eqb k' k) eqn:E; simpl; by rewrite E.
Qed.

Lemma echoes_with_id (msg_id : json) (d : list (string * json)) :
  dict_get d "id" = None -> echoes msg_id (with_id msg_id d).
Proof.
  intros Hd. destruct msg_id; simpl; try apply dict_get_set. exact Hd.
Qed.

(** ** Dispatch loop *)

Section DispatchFacts.
Context `{Runtime}.


Lemma stdout_event (ev : peer_event) (w : world) :
  stdout (apply_event ev w) = stdout w.
Proof. by destruct ev. Qed.

Lemma main_iteration_dispatch (d : list (string * json)) (started : bool)
  (w : world) :
  main_iteration (JObj d) started w =
    (handled <- dispatch d started ;;
     result <- (match field d "id" with
                | JNull => ret (fst handled)
                | _ => lift (py_setitem (fst handled) "id" (field d "id"))
                end) ;;
     send_message result ;;
     ret (snd handled)) w.
Proof.
  unfold main_iteration, dispatch, field, py_get, lift, bind.
  destruct (py_eq _ (JStr "register")); [reflexivity|].
  destruct (py_eq _ (JStr "get-profiles")); [reflexivity|].
  destruct (py_eq _ (JStr "switch-profile")); [reflexivity|].
  destruct (py_eq _ (JStr "open-url-in-profile")); reflexivity.
Qed.

Lemma main_iteration_not_dict (msg : json) (started : bool) (w : world) :
  (forall d, msg <> JObj d) ->
  main_iteration msg started w = (Raise AttributeError, w).
Proof. intros Hmsg. destruct msg; try reflexivity. by destruct (Hmsg d). Qed.

Lemma dispatch_stdout (d : list (string * json)) (started : bool) :
  keeps stdout (dispatch d started).
Proof.
  unfold dispatch.
  destruct (py_eq _ (JStr "register")).
  { destruct (py_truthy _ && negb started); by intros w. }
  destruct (py_eq _ (JStr "get-profiles")).
  { apply keeps_bind; [|by intros a w].
    apply keeps_get_profiles; done. }
  destruct (py_eq _ (JStr "switch-profile")).
  { apply keeps_bind; [|by intros a w].
    apply keeps_switch_profile; try done. apply stdout_event. }
  destruct (py_eq _ (JStr "open-url-in-profile")).
  { apply keeps_bind; [|by intros a w].
    apply keeps_open_url_in_profile; try done. apply stdout_event. }
  by intros w.
Qed.

Lemma dispatch_unaddressed (d : list (string * json)) (started : bool) :
  returns (fun handled => unaddressed (fst handled)) (dispatch d started).
Proof.
  unfold dispatch.
  destruct (py_eq _ (JStr "register")).
  { apply returns_bind. intros s. apply returns_ret. by apply unaddressed_intro. }
  destruct (py_eq _ (JStr "get-profiles")).
  { intros w w' a. unfold bind.
    destruct (get_profiles _ w) as [[r|e] w1] eqn:E; [|discriminate].
    unfold ret. intros [= <- _]. by eapply get_profiles_unaddressed. }
  destruct (py_eq _ (JStr "switch-profile")).
  { intros w w' a. unfold bind.
    destruct (switch_profile _ w) as [[r|e] w1] eqn:E; [|discriminate].
    unfold ret. intros [= <- _]. by eapply switch_profile_unaddressed. }
  destruct (py_eq _ (JStr "open-url-in-profile")).
  { intros w w' a. unfold bind.
    destruct (open_url_in_profile _ _ w) as [[r|e] w1] eqn:E; [|discriminate].
    unfold ret. intros [= <- _]. by eapply open_url_in_profile_unaddressed. }
  apply returns_ret. by apply unaddressed_intro.
Qed.

(** One turn of the loop, from what [dispatch] did. *)
Lemma main_iteration_run (d : list (string * json)) (started : bool) (w : world) :
  match dispatch d started w with
  | (Ret (JObj result, started'), w1) =>
      main_iteration (JObj d) started w =
        (Ret started', with_stdout (stdout w1 ++ [with_id (field d "id") result]) w1)
  | (Ret (_, _), w1) => True
  | (Raise e, w1) => main_iteration (JObj d) started w = (Raise e, w1)
  end.
Proof.
  destruct (dispatch d started w) as [[[result started']|e] w1] eqn:E.
  - destruct result; try exact I.
    rewrite main_iteration_dispatch. unfold bind at 1. rewrite E.
    unfold with_id. by destruct (field d "id").
  - rewrite main_iteration_dispatch. unfold bind at 1. by rewrite E.
Qed.
End DispatchFacts.

Section DispatchTheorems.
Context `{Runtime}.




End DispatchTheorems.

(** C9, as the code has it. A turn of the dispatch loop either raises, and
    then writes no response (the exception ends the process), or writes
    exactly one response; that response carries the [id] of the request
    when the request has a non-null one, and no [id] otherwise. *)
Theorem one_response_per_request `{Runtime} (msg : json) (watcher_started : bool)
  (w : world) :
  match main_iteration msg watcher_started w with
  | (Ret _, w') =>
      exists (d : list (string * json)) (response : json),
        msg = JObj d /\
        stdout w' = stdout w ++ [response] /\
        echoes (field d "id") response
  | (Raise _, w') => stdout w' = stdout w
  end.
Proof.
  destruct msg as [| | | | |d]; try reflexivity.
  pose proof (main_iteration_run d watcher_started w) as Hrun.
  pose proof (dispatch_stdout d watcher_started w) as Hout.
  pose proof (dispatch_unaddressed d watcher_started w) as Hshape.
  destruct (dispatch d watcher_started w) as [[[result s']|e] w1] eqn:E.
  - destruct (Hshape w1 (result, s') eq_refl) as (r & Hr & Hid).
    simpl in Hr. subst result. rewrite Hrun. exists d, (with_id (field d "id") r).
    simpl in *. rewrite Hout. by split; [|split; [|apply echoes_with_id]].
  - rewrite Hrun. exact Hout.
Qed.


Section ServingFacts.
Context `{Runtime}.




End ServingFacts.


Section WatcherFacts.
Context `{Runtime}.

(** The watcher relays a payload without a truthy [url] as a plain
    activation. *)
Lemma signal_watcher_poll_activate (p content : string) (document : text)
  (payload : list (string * json)) (w : world) :
  slots w !! p = Some content ->
  decode_utf8 content = Ret document ->
  json_loads document = Ret (JObj payload) ->
  py_truthy (field payload "url") = false ->
  signal_watcher_poll (JStr p) w =
    (Ret tt,
     with_stdout (stdout w ++ [JObj [("action", JStr "activate")]])
       (with_slots (delete p) w)).
Proof.
  intros Hp Hdecode Hloads Hurl. unfold signal_watcher_poll, bind.
  rewrite (read_signal_present p content document (JObj payload) w Hp Hdecode Hloads).
  unfold lift, py_get. fold (field payload "url"). by rewrite Hurl.
Qed.

Lemma signal_watcher_poll_open_url (p content : string) (document : text)
  (payload : list (string * json)) (w : world) :
  slots w !! p = Some content ->
  decode_utf8 content = Ret document ->
  json_loads document = Ret (JObj payload) ->
  py_truthy (field payload "url") = true ->
  signal_watcher_poll (JStr p) w =
    (Ret tt,
     with_stdout
       (stdout w ++ [JObj [("action", JStr "open-url"); ("url", field payload "url")]])
       (with_slots (delete p) w)).
Proof.
  intros Hp Hdecode Hloads Hurl. unfold signal_watcher_poll, bind.
  rewrite (read_signal_present p content document (JObj payload) w Hp Hdecode Hloads).
  unfold lift, py_get. fold (field payload "url"). by rewrite Hurl.
Qed.
End WatcherFacts.

(** C10. [open_url_in_profile p ""] writes the payload [{"url": ""}] into
    the slot of [p] before it waits; the watcher that takes this payload
    emits the plain [{"action": "activate"}] event, the very event it
    emits for the payload that [switch_profile p] writes. *)
Theorem empty_url_activates `{Runtime} (p : string) (w : world) :
  path_component p = true ->
  hd None (popen_faults w) = None ->
  round_trips (JObj [("url", JStr "")]) ->
  round_trips (JObj []) ->
  (exists w1 : world,
      (activate_chrome ;; write_signal (JStr p) (JObj [("url", JStr "")])) w
        = (Ret tt, w1) /\
      slots w1 !! p = Some (encode_utf8 (json_dumps (JObj [("url", JStr "")]))) /\
      open_url_in_profile (JStr p) (JStr "") w =
        (consumed <- wait_for_signal_consumed (JStr p) 2000 ;;
         if consumed then ret by_signal
         else launched (Popen [JStr CHROME_BIN;
                               JStr ("--profile-directory=" +:+ p); JStr ""])) w1) /\
  (exists w1 : world,
      (activate_chrome ;; write_signal (JStr p) JNull) w = (Ret tt, w1) /\
      slots w1 !! p = Some (encode_utf8 (json_dumps (JObj [])))) /\
  (forall (w2 : world) (content : string),
      content = encode_utf8 (json_dumps (JObj [("url", JStr "")])) \/
      content = encode_utf8 (json_dumps (JObj [])) ->
      slots w2 !! p = Some content ->
      signal_watcher_poll (JStr p) w2 =
        (Ret tt,
         with_stdout (stdout w2 ++ [JObj [("action", JStr "activate")]])
           (with_slots (delete p) w2))).
Proof.
  intros _ Hok [Hdecode_url Hloads_url] [Hdecode_empty Hloads_empty].
  split; [|split].
  - pose proof (activation_start p (JObj [("url", JStr "")]) w Hok) as Hstart.
    eexists. split; [exact Hstart|]. split; [apply lookup_insert_eq|].
    unfold open_url_in_profile.
    unfold bind at 1. unfold bind at 1 in Hstart.
    destruct (activate_chrome w) as [[[]|e] w0]; [|discriminate].
    unfold bind at 1. by rewrite Hstart.
  - pose proof (activation_start p JNull w Hok) as Hstart.
    eexists. split; [exact Hstart|]. apply lookup_insert_eq.
  - intros w2 content [-> | ->] Hslot.
    + by eapply signal_watcher_poll_activate.
    + by eapply signal_watcher_poll_activate.
Qed.

(** ** Closed examples *)

Section DispatchExamples.
#[local] Existing Instance Reference.runtime.



(** The three outcomes of [switch_profile]: nobody takes the signal and
    Chrome starts; Chrome cannot be started; the watcher of the target
    takes the signal in time. *)
Example switch_profile_launches :
  let outcome := switch_profile (JStr "Profile 1") quiet_world in
  fst outcome = Ret by_launch /\
  spawned (snd outcome) = [activate_argv; launch_argv "Profile 1" None] /\
  slots (snd outcome) !! "Profile 1" = None.
Proof. vm_compute. by repeat split. Qed.

Example switch_profile_launch_fails :
  let outcome :=
    switch_profile (JStr "Profile 1")
      (with_popen [None; Some "[Errno 2] No such file or directory"] [] quiet_world) in
  fst outcome = Ret (launch_failed "[Errno 2] No such file or directory") /\
  spawned (snd outcome) = [activate_argv].
Proof. vm_compute. by repeat split. Qed.

Example switch_profile_signals :
  let outcome :=
    switch_profile (JStr "Profile 1")
      (with_time 0 [] [(250, PeerWatcher "Profile 1")] quiet_world) in
  fst outcome = Ret by_signal /\
  spawned (snd outcome) = [activate_argv] /\
  relayed (snd outcome) = [("Profile 1", JObj [("action", JStr "activate")])].
Proof. vm_compute. by repeat split. Qed.


(** Two [register] requests for different identifiers: both answered,
    one watcher, for the first identifier. *)
Example two_registrations_one_watcher :
  let outcome := main two_registrations quiet_world in
  fst outcome = 0 /\
  threads (snd outcome) = [JStr "Profile 1"] /\
  stdout (snd outcome) =
    [JObj [("success", JBool true); ("id", JInt 1)];
     JObj [("success", JBool true); ("id", JInt 2)]].
Proof. vm_compute. by repeat split. Qed.

(** C9, as worded, fails: a [switch-profile] request without [profileDir]
    raises [TypeError] when the path of the slot is built; the process
    exits with status 1 and the request gets no response. *)
Lemma one_response_counterexample :
  fst (main_iteration unanswered_request false quiet_world) = Raise TypeError /\
  stdout (snd (main_iteration unanswered_request false quiet_world)) = [] /\
  fst (main [unanswered_request] quiet_world) = 1 /\
  stdout (snd (main [unanswered_request] quiet_world)) = [] /\
  ~ stated_response unanswered_request false quiet_world.
Proof.
  assert (Hout : stdout (snd (main_iteration unanswered_request false quiet_world)) = [])
    by (vm_compute; reflexivity).
  split; [vm_compute; reflexivity|]. split; [exact Hout|].
  split; [vm_compute; reflexivity|]. split; [vm_compute; reflexivity|].
  intros (d & response & _ & Hresponse & _).
  rewrite Hout in Hresponse. simpl in Hresponse. discriminate.
Qed.

Lemma empty_url_activates_witness :
  (exists w1 : world,
      (activate_chrome ;; write_signal (JStr "Profile 1") (JObj [("url", JStr "")]))
        quiet_world = (Ret tt, w1) /\
      slots w1 !! "Profile 1"
        = Some (encode_utf8 (json_dumps (JObj [("url", JStr "")]))) /\
      open_url_in_profile (JStr "Profile 1") (JStr "") quiet_world =
        (consumed <- wait_for_signal_consumed (JStr "Profile 1") 2000 ;;
         if consumed then ret by_signal
         else launched (Popen [JStr CHROME_BIN;
                               JStr ("--profile-directory=" +:+ "Profile 1");
                               JStr ""])) w1) /\
  (exists w1 : world,
      (activate_chrome ;; write_signal (JStr "Profile 1") JNull) quiet_world
        = (Ret tt, w1) /\
      slots w1 !! "Profile 1" = Some (encode_utf8 (json_dumps (JObj [])))) /\
  (forall (w2 : world) (content : string),
      content = encode_utf8 (json_dumps (JObj [("url", JStr "")])) \/
      content = encode_utf8 (json_dumps (JObj [])) ->
      slots w2 !! "Profile 1" = Some content ->
      signal_watcher_poll (JStr "Profile 1") w2 =
        (Ret tt,
         with_stdout (stdout w2 ++ [JObj [("action", JStr "activate")]])
           (with_slots (delete "Profile 1") w2))).
Proof.
  apply (empty_url_activates "Profile 1" quiet_world);
    [reflexivity | reflexivity | split; reflexivity | split; reflexivity].
Defined.

(** With the watcher of the target polling in time, an empty URL and a
    plain switch are relayed alike, and a real URL is relayed as
    [open-url]. *)
Example empty_url_relayed_as_activate :
  let listening := with_time 0 [] [(250, PeerWatcher "Profile 1")] quiet_world in
  relayed (snd (open_url_in_profile (JStr "Profile 1") (JStr "") listening))
    = [("Profile 1", JObj [("action", JStr "activate")])] /\
  relayed (snd (switch_profile (JStr "Profile 1") listening))
    = [("Profile 1", JObj [("action", JStr "activate")])] /\
  relayed (snd (open_url_in_profile (JStr "Profile 1") (JStr "https://example.org/")
                  listening))
    = [("Profile 1",
        JObj [("action", JStr "open-url"); ("url", JStr "https://example.org/")])].
Proof. vm_compute. by repeat split. Qed.

End DispatchExamples.

(** ** Framed transport *)

Lemma byte_code (n : Z) : Z.of_nat (nat_of_ascii (byte n)) = n mod 256.
Proof.
  unfold byte. rewrite nat_ascii_embedding.
  - rewrite Z2Nat.id; [reflexivity|]. apply Z.mod_pos_bound. lia.
  - pose proof (Z.mod_pos_bound n 256 ltac:(lia)). lia.
Qed.

Lemma unpack_pack_u32 (n : Z) (header : string) :
  pack_u32 n = Some header -> unpack_u32 header = n /\ String.length header = 4%nat.
Proof.
  unfold pack_u32. destruct ((0 <=? n) && (n <? 4294967296)) eqn:Hn; [|discriminate].
  intros [= <-]. split; [|reflexivity].
  apply andb_prop in Hn as [Hlow Hhigh].
  apply Z.leb_le in Hlow. apply Z.ltb_lt in Hhigh.
  unfold unpack_u32. rewrite !byte_code.
  Z.to_euclidean_division_equations. lia.
Qed.

Lemma take_bytes_app (a b : string) : take_bytes (String.length a) (a +:+ b) = a.
Proof.
  induction a as [|c a IH].
  - by destruct b.
  - rewrite append_cons. simpl. by rewrite IH.
Qed.

Lemma drop_bytes_app (a b : string) : drop_bytes (String.length a) (a +:+ b) = b.
Proof.
  induction a as [|c a IH].
  - by destruct b.
  - rewrite append_cons. simpl. by rewrite IH.
Qed.

Lemma take_bytes_length (n : nat) (s : string) :
  String.length (take_bytes n s) = Nat.min n (String.length s).
Proof.
  revert s. induction n as [|n IH]; intros [|c s]; simpl; try reflexivity.
  by rewrite IH.
Qed.

Lemma append_assoc (a b c : string) : (a +:+ b) +:+ c = a +:+ (b +:+ c).
Proof.
  induction a as [|x a IH]; [reflexivity | by rewrite !append_cons, IH].
Qed.

Section TransportFacts.
Context `{Runtime} (json_dumps_compact : json -> text).

Lemma read_message_frame (msg : json) (frame rest : string) :
  send_message_bytes json_dumps_compact msg = Some frame ->
  frame_round_trips json_dumps_compact msg ->
  read_message (frame +:+ rest) = Message msg rest.
Proof.
  unfold send_message_bytes. intros Hframe [Hdecode Hloads].
  set (encoded := encode_utf8 (json_dumps_compact msg)) in *.
  destruct (pack_u32 (Z.of_nat (String.length encoded))) as [header|] eqn:Hpack;
    [|discriminate].
  injection Hframe as <-.
  destruct (unpack_pack_u32 _ _ Hpack) as [Hunpack Hlen].
  unfold read_message. rewrite append_assoc.
  assert (Htake : take_bytes 4 (header +:+ (encoded +:+ rest)) = header)
    by (rewrite <- Hlen; apply take_bytes_app).
  assert (Hdrop : drop_bytes 4 (header +:+ (encoded +:+ rest)) = encoded +:+ rest)
    by (rewrite <- Hlen; apply drop_bytes_app).
  rewrite Htake, Hdrop, Hlen, Hunpack, Nat2Z.id. simpl (4 <? 4)%nat. cbv iota.
  rewrite take_bytes_app, drop_bytes_app, Z.ltb_irrefl.
  fold encoded in Hdecode. rewrite Hdecode. simpl. by rewrite Hloads.
Qed.

Lemma read_message_short (stdin : string) :
  (String.length stdin < 4)%nat -> read_message stdin = SystemExit 0.
Proof.
  intros Hshort. unfold read_message. rewrite take_bytes_length.
  destruct (Nat.ltb_spec (Nat.min 4 (String.length stdin)) 4) as [_|Hge];
    [reflexivity | lia].
Qed.

Lemma read_message_header (header body : string) (n : Z) :
  pack_u32 n = Some header ->
  read_message (header +:+ body) =
    let data := take_bytes (Z.to_nat n) body in
    if Z.of_nat (String.length data) <? n then SystemExit 0
    else
      match res_bind (decode_utf8 data) json_loads with
      | Ret msg => Message msg (drop_bytes (Z.to_nat n) body)
      | Raise e => Uncaught e
      end.
Proof.
  intros Hpack. destruct (unpack_pack_u32 _ _ Hpack) as [Hunpack Hlen].
  unfold read_message.
  assert (Htake : take_bytes 4 (header +:+ body) = header)
    by (rewrite <- Hlen; apply take_bytes_app).
  assert (Hdrop : drop_bytes 4 (header +:+ body) = body)
    by (rewrite <- Hlen; apply drop_bytes_app).
  by rewrite Htake, Hdrop, Hlen, Hunpack.
Qed.
End TransportFacts.

(** X1. What [send_message] writes is the length of the encoded message
    as four bytes, least significant first, followed by the encoded
    message; it fails exactly when the encoded message is 2^32 bytes long
    or more. *)
Theorem send_message_bytes_format `{Runtime} (json_dumps_compact : json -> text)
  (msg : json) :
  let encoded := encode_utf8 (json_dumps_compact msg) in
  match send_message_bytes json_dumps_compact msg with
  | Some frame =>
      exists header : string,
        frame = header +:+ encoded /\
        String.length header = 4%nat /\
        unpack_u32 header = Z.of_nat (String.length encoded) /\
        String.length frame = (4 + String.length encoded)%nat
  | None => 4294967296 <= Z.of_nat (String.length encoded)
  end.
Proof.
  intros encoded. unfold send_message_bytes. fold encoded.
  destruct (pack_u32 (Z.of_nat (String.length encoded))) as [header|] eqn:Hpack.
  - destruct (unpack_pack_u32 _ _ Hpack) as [Hunpack Hlen].
    exists header. repeat split; try done.
    rewrite <- Hlen. clear. induction header as [|c h IH]; [reflexivity|].
    rewrite append_cons. simpl. by rewrite IH.
  - unfold pack_u32 in Hpack.
    destruct (Z.ltb_spec (Z.of_nat (String.length encoded)) 4294967296) as [Hlt|Hge];
      [|exact Hge].
    destruct (Z.leb_spec 0 (Z.of_nat (String.length encoded))); [discriminate | lia].
Qed.

(** X2. A frame written by [send_message] is read back by [read_message]
    as the message it was written for, and the bytes after the frame are
    left in the stream. *)
Theorem read_message_send_message `{Runtime} (json_dumps_compact : json -> text)
  (msg : json) (frame rest : string) :
  send_message_bytes json_dumps_compact msg = Some frame ->
  frame_round_trips json_dumps_compact msg ->
  read_message (frame +:+ rest) = Message msg rest.
Proof. apply read_message_frame. Qed.

(** X3. On a stream made of the frames of a sequence of messages, [main]
    does what [main_loop] does on the messages: it handles them in order
    and exits with status 0 at the end of the stream, or with status 1 at
    the first request whose handling raises. *)
Theorem main_bytes_frames `{Runtime} (json_dumps_compact : json -> text)
  (msgs : list json) (frames : list string) (fuel : nat)
  (watcher_started : bool) (w : world) :
  Forall2 (fun msg frame =>
             send_message_bytes json_dumps_compact msg = Some frame /\
             frame_round_trips json_dumps_compact msg) msgs frames ->
  (List.length msgs < fuel)%nat ->
  main_bytes fuel (concat_bytes frames) watcher_started w
    = main_loop msgs watcher_started w.
Proof.
  intros Hframes. revert fuel watcher_started w.
  induction Hframes as [|msg frame msgs frames [Hframe Hround] _ IH];
    intros fuel started w Hfuel.
  - destruct fuel as [|fuel]; [simpl in Hfuel; lia|]. reflexivity.
  - destruct fuel as [|fuel]; [simpl in Hfuel; lia|].
    simpl main_bytes. simpl concat_bytes.
    rewrite (read_message_frame json_dumps_compact msg frame _ Hframe Hround).
    simpl main_loop.
    destruct (main_iteration msg started w) as [[started'|e] w']; [|reflexivity].
    apply IH. simpl in Hfuel. lia.
Qed.

(** X4. A stream that ends inside a length prefix, or before the
    announced number of bytes, makes [read_message] call [sys.exit(0)]:
    [main] exits with status 0 and the partial message is not handled. *)
Theorem read_message_truncated `{Runtime} (stdin : string) (fuel : nat)
  (watcher_started : bool) (w : world) :
  (String.length stdin < 4)%nat \/
  (exists (header body : string) (n : Z),
      stdin = header +:+ body /\ pack_u32 n = Some header /\
      Z.of_nat (String.length body) < n) ->
  read_message stdin = SystemExit 0 /\
  main_bytes (S fuel) stdin watcher_started w = (0, w).
Proof.
  intros Hcut.
  assert (Hexit : read_message stdin = SystemExit 0).
  { destruct Hcut as [Hshort|(header & body & n & -> & Hpack & Hbody)].
    - by apply read_message_short.
    - rewrite (read_message_header header body n Hpack). cbv zeta.
      rewrite take_bytes_length.
      destruct (Z.ltb_spec (Z.of_nat (Nat.min (Z.to_nat n) (String.length body))) n);
        [reflexivity | lia]. }
  split; [exact Hexit|]. simpl. by rewrite Hexit.
Qed.

(** X5. A complete frame whose body is not UTF-8, or is not JSON, raises
    in [read_message]; nothing catches the exception before [main] exits
    with status 1, without a response. *)
Theorem read_message_garbage `{Runtime} (header data rest : string) (e : exn)
  (fuel : nat) (watcher_started : bool) (w : world) :
  pack_u32 (Z.of_nat (String.length data)) = Some header ->
  res_bind (decode_utf8 data) json_loads = Raise e ->
  read_message (header +:+ data +:+ rest) = Uncaught e /\
  main_bytes (S fuel) (header +:+ data +:+ rest) watcher_started w = (1, w).
Proof.
  intros Hpack Hbody.
  assert (Hread : read_message (header +:+ data +:+ rest) = Uncaught e).
  { rewrite (read_message_header header (data +:+ rest) _ Hpack). cbv zeta.
    rewrite Nat2Z.id, take_bytes_app, Z.ltb_irrefl. by rewrite Hbody. }
  split; [exact Hread|]. simpl. by rewrite Hread.
Qed.


(** ** Highlight colour, read back *)

Lemma hex_char_value (d : Z) :
  0 <= d < 16 -> hex_digit_value (hex_char d) = Some d.
Proof.
  intros Hd.
  assert (Hall : forallb (fun n => match hex_digit_value (hex_char (Z.of_nat n)) with
                                   | Some v => v =? Z.of_nat n
                                   | None => false
                                   end) (seq 0 16) = true)
    by (vm_compute; reflexivity).
  rewrite forallb_forall in Hall. specialize (Hall (Z.to_nat d)).
  rewrite Z2Nat.id in Hall by lia.
  destruct (hex_digit_value (hex_char d)) as [v|].
  - f_equal. apply Z.eqb_eq, Hall, in_seq. lia.
  - discriminate Hall. apply in_seq. lia.
Qed.

Lemma highlight_color_formula (v : Z) :
  highlight_color_to_hex (JInt v) =
    Ret (JStr ("#" +:+ hex_byte ((v mod 2 ^ 32) / 2 ^ 16 mod 2 ^ 8)
                   +:+ hex_byte ((v mod 2 ^ 32) / 2 ^ 8 mod 2 ^ 8)
                   +:+ hex_byte ((v mod 2 ^ 32) mod 2 ^ 8))).
Proof.
  unfold highlight_color_to_hex, py_as_int.
  rewrite !colour_component by lia.
  replace (Z.land (Z.land v 4294967295) 255) with (v mod 2 ^ 32 mod 2 ^ 8).
  2:{ change 4294967295 with (Z.ones 32). change 255 with (Z.ones 8).
      rewrite !Z.land_ones by lia. reflexivity. }
  rewrite !format_02x_byte; [reflexivity | apply Z.mod_pos_bound; lia ..].
Qed.

(** X6. For every integer the highlight colour is [#] followed by six
    lowercase hexadecimal digits whose value is the integer modulo 2^24:
    the colour depends on the low 24 bits only, and two integers that
    differ there get different colours. *)
Theorem highlight_color_to_hex_value (v : Z) :
  exists s : string,
    highlight_color_to_hex (JInt v) = Ret (JStr s) /\
    hex_colour_value s = Some (v mod 2 ^ 24).
Proof.
  eexists. split; [apply highlight_color_formula|].
  set (r := (v mod 2 ^ 32) / 2 ^ 16 mod 2 ^ 8).
  set (g := (v mod 2 ^ 32) / 2 ^ 8 mod 2 ^ 8).
  set (b := (v mod 2 ^ 32) mod 2 ^ 8).
  assert (Hr : 0 <= r < 256) by (apply Z.mod_pos_bound; lia).
  assert (Hg : 0 <= g < 256) by (apply Z.mod_pos_bound; lia).
  assert (Hb : 0 <= b < 256) by (apply Z.mod_pos_bound; lia).
  unfold hex_byte. rewrite !append_cons. change ("" +:+ ?x) with x.
  unfold hex_colour_value. simpl.
  rewrite !hex_char_value by (Z.to_euclidean_division_equations; lia).
  f_equal. unfold r, g, b. change (2 ^ 32) with 4294967296.
  change (2 ^ 16) with 65536. change (2 ^ 8) with 256. change (2 ^ 24) with 16777216.
  Z.to_euclidean_division_equations. lia.
Qed.

(** ** Profile listing *)

Section ListingFacts.
Context `{Runtime}.

Lemma get_profiles_world (current_email : json) (w : world) :
  snd (get_profiles current_email w) = w.
Proof. apply (keeps_get_profiles (fun w => w)). Qed.

Lemma read_local_state_world (w : world) : snd (read_local_state w) = w.
Proof. apply (keeps_read_local_state (fun w => w)). Qed.

Lemma list_profiles_spec (info_cache : list (string * json))
  (current_email : json) (dirs : list string) (i : Z) (profiles : list json)
  (current_index : json) (w w' : world) (listed : list json * json) :
  list_profiles info_cache current_email dirs i profiles current_index w
    = (Ret listed, w') ->
  exists new : list json,
    fst listed = profiles ++ new /\
    Forall2 (is_record w info_cache) dirs new /\
    snd listed = scan_index current_email new i current_index.
Proof.
  revert i profiles current_index.
  induction dirs as [|dirname dirs IH]; intros i profiles current_index.
  - simpl. unfold ret. intros [= <- _]. exists []. simpl.
    by rewrite app_nil_r.
  - simpl. unfold bind, lift, read_avatar_base64.
    destruct (py_getitem info_cache dirname) as [info|] eqn:Einfo; [|discriminate].
    destruct (py_get info "user_name" _) as [user_name|] eqn:Euser; [|discriminate].
    destruct (py_get info "name" _) as [name|] eqn:Ename; [|discriminate].
    destruct (py_get info "profile_highlight_color" _) as [color|] eqn:Ecolor;
      [|discriminate].
    destruct (highlight_color_to_hex color) as [highlight|] eqn:Ehex; [|discriminate].
    intros Hrest. apply IH in Hrest as (new & Hnew & Hrecords & Hindex).
    destruct info as [| | | | |info]; try discriminate.
    unfold py_getitem in Einfo.
    destruct (dict_get info_cache dirname) as [entry|] eqn:Eentry; [|discriminate].
    injection Einfo as ->. simpl in Euser, Ename, Ecolor.
    injection Euser as <-. injection Ename as <-. injection Ecolor as <-.
    eexists (_ :: new). rewrite Hnew, <- app_assoc. split; [reflexivity|].
    split.
    + constructor; [|exact Hrecords]. exists info, highlight.
      split; [exact Eentry|]. split; [exact Ehex | reflexivity].
    + rewrite Hindex. simpl. unfold email_matches. simpl. reflexivity.
Qed.
End ListingFacts.

Lemma scan_index_last_match (current_email : json) (new : list json) (i : Z)
  (current_index : json) :
  last_match current_email new i current_index
    (scan_index current_email new i current_index).
Proof.
  revert i current_index. induction new as [|profile new IH]; intros i current_index.
  - left. by split.
  - simpl. destruct (IH (i + 1)
                       (if email_matches current_email profile then JInt i
                        else current_index))
      as [[Hresult Hnone]|(k & p & Hresult & Hnth & Hmatch & Hlater)].
    + destruct (email_matches current_email profile) eqn:Ematch.
      * right. exists O, profile. rewrite Hresult, Z.add_0_r.
        split; [reflexivity|]. split; [reflexivity|]. split; [exact Ematch|].
        intros [|j] other Hj Hother; [lia|]. simpl in Hother.
        rewrite List.Forall_forall in Hnone. apply Hnone.
        by apply nth_error_In in Hother.
      * left. split; [exact Hresult|]. by constructor.
    + right. exists (S k), p. rewrite Hresult.
      split; [f_equal; lia|]. split; [exact Hnth|]. split; [exact Hmatch|].
      intros [|j] other Hj Hother; [lia|]. simpl in Hother.
      apply (Hlater j other); [lia | exact Hother].
Qed.

Lemma dict_get_In (d : list (string * json)) (k : string) (v : json) :
  dict_get d k = Some v -> In (k, v) d.
Proof.
  induction d as [|[k' v'] d IH]; [discriminate|]. simpl.
  destruct (String.eqb_spec k' k) as [->|Hne].
  - intros [= ->]. by left.
  - intros Hget. right. by apply IH.
Qed.

Lemma dict_get_key (d : list (string * json)) (k : string) :
  In k (map fst d) -> exists v, dict_get d k = Some v.
Proof.
  induction d as [|[k' v'] d IH]; [intros []|]. simpl.
  destruct (String.eqb_spec k' k) as [->|Hne]; [by eexists|].
  intros [Heq|Hin]; [done | by apply IH].
Qed.

Lemma dict_get_NoDup (d : list (string * json)) (k : string) (v : json) :
  List.NoDup (map fst d) -> In (k, v) d -> dict_get d k = Some v.
Proof.
  induction d as [|[k' v'] d IH]; [intros _ []|]. simpl.
  intros Hnodup [Heq|Hin].
  - injection Heq as -> ->. by rewrite String.eqb_refl.
  - apply NoDup_cons_iff in Hnodup as [Hfresh Hnodup].
    destruct (String.eqb_spec k' k) as [->|Hne]; [|by apply IH].
    destruct Hfresh. apply in_map_iff. by exists (k, v).
Qed.

Lemma forallb_false {A} (f : A -> bool) (l : list A) :
  forallb f l = false -> exists x, In x l /\ f x = false.
Proof.
  induction l as [|x l IH]; [discriminate|]. simpl.
  destruct (f x) eqn:Hx; simpl.
  - intros Hl. destruct (IH Hl) as (y & Hy & Hfy). exists y. by split; [right|].
  - intros _. exists x. by split; [left|].
Qed.

Lemma highlight_color_readable (value : json) :
  colour_readable value = true ->
  exists colour, highlight_color_to_hex value = Ret colour.
Proof. destruct value; try discriminate; intros _; by eexists. Qed.

Lemma highlight_color_unreadable (value : json) :
  colour_readable value = false -> highlight_color_to_hex value = Raise TypeError.
Proof. by destruct value. Qed.

Section ListingTheorems.
Context `{Runtime}.

Lemma list_profiles_readable (info_cache : list (string * json))
  (current_email : json) (dirs : list string) (i : Z) (profiles : list json)
  (current_index : json) (w : world) :
  (forall dirname, In dirname dirs ->
     exists entry, dict_get info_cache dirname = Some entry /\
                   entry_readable (dirname, entry) = true) ->
  exists listed,
    list_profiles info_cache current_email dirs i profiles current_index w
      = (Ret listed, w).
Proof.
  revert i profiles current_index.
  induction dirs as [|dirname dirs IH]; intros i profiles current_index Hdirs.
  - by eexists.
  - destruct (Hdirs dirname ltac:(by left)) as (entry & Hentry & Hok).
    unfold entry_readable in Hok. simpl in Hok.
    destruct entry as [| | | | |info]; try discriminate.
    destruct (highlight_color_readable _ Hok) as (colour & Hcolour).
    simpl. unfold bind, lift, py_getitem, read_avatar_base64. rewrite Hentry.
    simpl. fold (field info "profile_highlight_color"). rewrite Hcolour.
    apply IH. intros; apply Hdirs. by right.
Qed.

Lemma list_profiles_unreadable (info_cache : list (string * json))
  (current_email : json) (dirs : list string) (i : Z) (profiles : list json)
  (current_index : json) (w : world) :
  (forall dirname, In dirname dirs -> In dirname (map fst info_cache)) ->
  (exists dirname entry,
      In dirname dirs /\ dict_get info_cache dirname = Some entry /\
      entry_readable (dirname, entry) = false) ->
  fst (list_profiles info_cache current_email dirs i profiles current_index w)
    = Raise AttributeError \/
  fst (list_profiles info_cache current_email dirs i profiles current_index w)
    = Raise TypeError.
Proof.
  revert i profiles current_index.
  induction dirs as [|dirname dirs IH]; intros i profiles current_index Hkeys Hbad.
  - by destruct Hbad as (? & ? & [] & _).
  - destruct (dict_get_key info_cache dirname (Hkeys dirname ltac:(by left)))
      as (entry & Hentry).
    simpl. unfold bind, lift, py_getitem, read_avatar_base64. rewrite Hentry.
    destruct entry as [| | | | |info]; try (by left).
    simpl. fold (field info "profile_highlight_color").
    destruct (colour_readable (field info "profile_highlight_color")) eqn:Hok.
    + destruct (highlight_color_readable _ Hok) as (colour & ->).
      apply IH; [intros; apply Hkeys; by right|].
      destruct Hbad as (bad & entry & [<-|Hin] & Hget & Hunreadable).
      * rewrite Hentry in Hget. injection Hget as <-.
        unfold entry_readable in Hunreadable. simpl in Hunreadable. congruence.
      * by exists bad, entry.
    + rewrite (highlight_color_unreadable _ Hok). by right.
Qed.

(** [get_profiles] once the registry is read and is not empty. *)
Lemma get_profiles_listing (current_email : json) (w : world)
  (info_cache : list (string * json)) :
  registry_is w (JObj info_cache) -> info_cache <> [] ->
  get_profiles current_email w =
    (listed <- list_profiles info_cache current_email
                 (sorted profile_sort_key (map fst info_cache)) 0 [] JNull ;;
     ret (JObj [("profiles", JArr (fst listed)); ("currentIndex", snd listed)])) w.
Proof.
  intros (local_state & profile & Hread & Hprofile & Hcache) Hne.
  pose proof (read_local_state_world w) as Hworld.
  unfold get_profiles. unfold bind at 1. unfold try_except. unfold bind at 1.
  destruct (read_local_state w) as [r w0]. simpl in Hread, Hworld. subst r w0.
  unfold ret at 1. unfold bind at 1, lift at 1. rewrite Hprofile.
  unfold bind at 1, lift at 1. rewrite Hcache.
  by destruct info_cache.
Qed.
End ListingTheorems.

(** X7. [get_profiles] only reads: whatever it returns or raises, the
    machine is as before; and a [get-profiles] request changes nothing
    but stdout, where its response goes. *)
Theorem get_profiles_read_only `{Runtime} (current_email : json)
  (d : list (string * json)) (watcher_started : bool) (w : world) :
  snd (get_profiles current_email w) = w /\
  (field d "action" = JStr "get-profiles" ->
   match main_iteration (JObj d) watcher_started w with
   | (Ret started, w') =>
       started = watcher_started /\
       exists result : list (string * json),
         fst (get_profiles (field d "currentEmail") w) = Ret (JObj result) /\
         w' = with_stdout (stdout w ++ [with_id (field d "id") result]) w
   | (Raise e, w') =>
       w' = w /\ fst (get_profiles (field d "currentEmail") w) = Raise e
   end).
Proof.
  split; [apply get_profiles_world|]. intros Haction.
  pose proof (main_iteration_run d watcher_started w) as Hrun.
  pose proof (get_profiles_world (field d "currentEmail") w) as Hworld.
  pose proof (get_profiles_unaddressed (field d "currentEmail") w) as Hshape.
  unfold dispatch in Hrun. rewrite Haction in Hrun. simpl in Hrun.
  unfold bind, ret in Hrun.
  destruct (get_profiles (field d "currentEmail") w) as [[r|e] w1]; simpl in *;
    subst w1.
  - destruct (Hshape w r eq_refl) as (result & -> & _).
    rewrite Hrun. split; [reflexivity|]. by exists result.
  - by rewrite Hrun.
Qed.

(** X8. The errors [get_profiles] reports: a registry file that cannot be
    read or is not JSON gives [Failed to read Local State] with the text
    of the exception; a registry without profiles (no [profile], no
    [info_cache], or an empty or null one) gives [No profiles found in
    Local State].  A registry file that is not UTF-8 is not reported: the
    [UnicodeDecodeError] is raised to the caller. *)
Theorem get_profiles_errors `{Runtime} (current_email : json) (w : world) :
  (forall reason : string,
      local_state_file w = Raise (OSError reason) ->
      get_profiles current_email w =
        (Ret (JObj [("error", JStr ("Failed to read Local State: " +:+ reason))]), w)) /\
  (forall (content reason : string) (document : text),
      local_state_file w = Ret content ->
      decode_utf8 content = Ret document ->
      json_loads document = Raise (JSONDecodeError reason) ->
      get_profiles current_email w =
        (Ret (JObj [("error", JStr ("Failed to read Local State: " +:+ reason))]), w)) /\
  (forall info_cache : json,
      registry_is w info_cache ->
      py_truthy info_cache = false ->
      get_profiles current_email w =
        (Ret (JObj [("error", JStr "No profiles found in Local State")]), w)) /\
  (forall local_state : list (string * json),
      fst (read_local_state w) = Ret (JObj local_state) ->
      dict_get local_state "profile" = None ->
      get_profiles current_email w =
        (Ret (JObj [("error", JStr "No profiles found in Local State")]), w)) /\
  (forall content reason : string,
      local_state_file w = Ret content ->
      decode_utf8 content = Raise (UnicodeDecodeError reason) ->
      get_profiles current_email w = (Raise (UnicodeDecodeError reason), w)).
Proof.
  assert (Hnone : forall info_cache : json,
             registry_is w info_cache -> py_truthy info_cache = false ->
             get_profiles current_email w =
               (Ret (JObj [("error", JStr "No profiles found in Local State")]), w)).
  { intros info_cache (local_state & profile & Hread & Hprofile & Hcache) Hfalsy.
    pose proof (read_local_state_world w) as Hworld.
    unfold get_profiles. unfold bind at 1. unfold try_except. unfold bind at 1.
    destruct (read_local_state w) as [r w0]. simpl in Hread, Hworld. subst r w0.
    unfold ret at 1. unfold bind at 1, lift at 1. rewrite Hprofile.
    unfold bind at 1, lift at 1. rewrite Hcache. by rewrite Hfalsy. }
  split; [|split; [|split; [exact Hnone|split]]].
  - intros reason Hfile.
    unfold get_profiles, read_local_state. unfold bind, try_except, lift, ret.
    cbv beta. by rewrite Hfile.
  - intros content reason document Hfile Hdecode Hloads.
    unfold get_profiles, read_local_state. unfold bind, try_except, lift, ret.
    cbv beta. by rewrite Hfile, Hdecode, Hloads.
  - intros local_state Hread Hmissing. apply (Hnone (JObj [])); [|reflexivity].
    exists (JObj local_state), (JObj []). split; [exact Hread|].
    simpl. by rewrite Hmissing.
  - intros content reason Hfile Hdecode.
    unfold get_profiles, read_local_state. unfold bind, try_except, lift, ret.
    cbv beta. by rewrite Hfile, Hdecode.
Qed.

(** X9. With a registry of distinct keys that is not empty,
    [get_profiles] returns a listing, of one profile per key, exactly
    when every entry is a dict whose highlight colour is absent, null or
    an integer; otherwise it raises [AttributeError] or [TypeError]
    and returns no partial listing. *)
Theorem get_profiles_lists `{Runtime} (current_email : json) (w : world)
  (info_cache : list (string * json)) :
  registry_is w (JObj info_cache) ->
  info_cache <> [] ->
  List.NoDup (map fst info_cache) ->
  if forallb entry_readable info_cache
  then exists (ps : list json) (current_index : json),
         get_profiles current_email w =
           (Ret (JObj [("profiles", JArr ps); ("currentIndex", current_index)]), w) /\
         List.length ps = List.length info_cache
  else fst (get_profiles current_email w) = Raise AttributeError \/
       fst (get_profiles current_email w) = Raise TypeError.
Proof.
  intros Hregistry Hne Hnodup.
  rewrite (get_profiles_listing current_email w info_cache Hregistry Hne).
  set (dirs := sorted profile_sort_key (map fst info_cache)).
  assert (Hkeys : forall dirname, In dirname dirs -> In dirname (map fst info_cache))
    by (intros dirname; apply sorted_In).
  destruct (forallb entry_readable info_cache) eqn:Hall.
  - rewrite forallb_forall in Hall.
    destruct (list_profiles_readable info_cache current_email dirs 0 [] JNull w)
      as (listed & Hlisted).
    { intros dirname Hin. destruct (dict_get_key _ _ (Hkeys _ Hin)) as (entry & Hentry).
      exists entry. split; [exact Hentry|]. apply Hall. by apply dict_get_In. }
    exists (fst listed), (snd listed). unfold bind, ret. rewrite Hlisted.
    split; [reflexivity|].
    destruct (list_profiles_spec _ _ _ _ _ _ _ _ _ Hlisted) as (new & Hnew & Hrecords & _).
    rewrite Hnew. simpl. rewrite <- (Forall2_length _ _ _ Hrecords).
    unfold dirs. rewrite (Permutation_length (sorted_perm _ _)). apply length_map.
  - assert (Hbad : exists dirname entry,
               In dirname dirs /\ dict_get info_cache dirname = Some entry /\
               entry_readable (dirname, entry) = false).
    { apply forallb_false in Hall.
      destruct Hall as ([dirname entry] & Hin & Hunreadable).
      exists dirname, entry. split; [|split; [by apply dict_get_NoDup | exact Hunreadable]].
      apply sorted_In, in_map_iff. by exists (dirname, entry). }
    pose proof (list_profiles_unreadable info_cache current_email dirs 0 [] JNull w
                  Hkeys Hbad) as Hraise.
    unfold bind.
    destruct (list_profiles info_cache current_email dirs 0 [] JNull w) as [[listed|e] w1];
      simpl in *; destruct Hraise as [Hr|Hr]; try discriminate;
      injection Hr as ->; [by left | by right].
Qed.

(** X10. In a listing, the profiles are the records of the registry keys
    in sorted order, one per key: [directory] is the key, [name] is the
    entry's [name] or else the key, [email] is the entry's [user_name] or
    else the empty string, [highlightColor] is the converted
    [profile_highlight_color], and [avatar] is the data URI of the
    picture or [None]. *)
Theorem get_profiles_records `{Runtime} (current_email : json) (w w' : world)
  (info_cache : list (string * json)) (r : json) (ps : list json) :
  registry_is w (JObj info_cache) ->
  get_profiles current_email w = (Ret r, w') ->
  result_field r "profiles" = Some (JArr ps) ->
  Forall2 (is_record w info_cache)
    (sorted profile_sort_key (map fst info_cache)) ps /\
  List.length ps = List.length info_cache.
Proof.
  intros Hregistry Hget Hps.
  assert (Hne : info_cache <> []).
  { intros ->. destruct Hregistry as (local_state & profile & Hread & Hprofile & Hcache).
    pose proof (read_local_state_world w) as Hworld.
    revert Hget. unfold get_profiles. unfold bind at 1. unfold try_except.
    unfold bind at 1.
    destruct (read_local_state w) as [r0 w0]. simpl in Hread, Hworld. subst r0 w0.
    unfold ret at 1. unfold bind at 1, lift at 1. rewrite Hprofile.
    unfold bind at 1, lift at 1. rewrite Hcache. simpl. unfold ret.
    intros [= <- _]. discriminate. }
  rewrite (get_profiles_listing current_email w info_cache Hregistry Hne) in Hget.
  unfold bind, ret in Hget.
  destruct (list_profiles _ _ _ _ _ _ w) as [[listed|e] w1] eqn:Hlisted; [|discriminate].
  injection Hget as <- _. simpl in Hps. injection Hps as <-.
  destruct (list_profiles_spec _ _ _ _ _ _ _ _ _ Hlisted) as (new & Hnew & Hrecords & _).
  rewrite Hnew. simpl. split; [exact Hrecords|].
  rewrite <- (Forall2_length _ _ _ Hrecords).
  rewrite (Permutation_length (sorted_perm _ _)). apply length_map.
Qed.

(** X11. In a listing, [currentIndex] is the index of the last profile
    whose [email] equals a non-empty [current_email], and [None] when
    there is no such profile; it is [None] whenever [current_email] is
    missing or empty. *)
Theorem get_profiles_current_index `{Runtime} (current_email : json)
  (w w' : world) (r : json) (ps : list json) (current_index : json) :
  get_profiles current_email w = (Ret r, w') ->
  result_field r "profiles" = Some (JArr ps) ->
  result_field r "currentIndex" = Some current_index ->
  last_match current_email ps 0 JNull current_index /\
  (py_truthy current_email = false -> current_index = JNull).
Proof.
  intros Hget Hps Hindex.
  assert (Hscan : current_index = scan_index current_email ps 0 JNull).
  { revert Hget. unfold get_profiles, bind, try_except, ret, lift, raise.
    destruct (read_local_state w) as [[local_state|e] w1].
    2:{ destruct (is_OSError e || is_JSONDecodeError e); [|discriminate].
        intros [= <- _]. discriminate. }
    destruct (py_get local_state "profile" _) as [profile|]; [|discriminate].
    destruct (py_get profile "info_cache" _) as [info_cache|]; [|discriminate].
    destruct (py_truthy info_cache); simpl; [|intros [= <- _]; discriminate].
    destruct info_cache as [| | | | |d]; try discriminate.
    destruct (list_profiles _ _ _ _ _ _ _) as [[listed|] w2] eqn:Elist; [|discriminate].
    intros [= <- _]. simpl in Hps, Hindex.
    injection Hps as <-. injection Hindex as <-.
    destruct (list_profiles_spec _ _ _ _ _ _ _ _ _ Elist) as (new & Hnew & _ & Hci).
    simpl in Hnew. by rewrite Hnew, Hci. }
  subst current_index.
  pose proof (scan_index_last_match current_email ps 0 JNull) as Hlast.
  split; [exact Hlast|]. intros Hfalsy.
  destruct Hlast as [[Hresult _]|(k & p & _ & _ & Hmatch & _)]; [exact Hresult|].
  unfold email_matches in Hmatch. by rewrite Hfalsy in Hmatch.
Qed.

(** ** Signal mailbox, further *)

Lemma with_slots_delete_absent (p : string) (w : world) :
  slots w !! p = None -> with_slots (delete p) w = w.
Proof.
  intros Hp. destruct w. unfold with_slots. simpl in *. f_equal.
  by apply delete_id.
Qed.

Section MailboxMore.
Context `{Runtime}.

Lemma read_signal_cases (p : string) (w : world) :
  match read_signal (JStr p) w with
  | (Ret _, w') => w' = with_slots (delete p) w
  | (Raise e, w') =>
      w' = w /\ is_OSError e = false /\ is_JSONDecodeError e = false /\
      slots w !! p <> None
  end.
Proof.
  unfold read_signal, bind, signal_path, ret, raise, path_exists, try_except,
    read_text, lift, unlink.
  destruct (slots w !! p) as [content|] eqn:Es; simpl.
  2:{ symmetry. by apply with_slots_delete_absent. }
  rewrite Es.
  destruct (decode_utf8 content) as [document|e]; simpl.
  - destruct (json_loads document) as [data|e]; simpl.
    + by rewrite Es.
    + destruct (is_OSError e) eqn:Eos, (is_JSONDecodeError e) eqn:Ejson; simpl;
        rewrite ?Es; try reflexivity.
      repeat split; congruence.
  - destruct (is_OSError e) eqn:Eos, (is_JSONDecodeError e) eqn:Ejson; simpl;
      rewrite ?Es; try reflexivity.
    repeat split; congruence.
Qed.
End MailboxMore.

(** X12. When [read_signal p] returns, with data or with [None], the slot
    of [p] is gone and nothing else has changed; when it raises, which it
    only does on an existing slot and never with an [OSError] or a
    [JSONDecodeError], nothing has changed. *)
Theorem read_signal_outcome `{Runtime} (p : string) (w : world) :
  match read_signal (JStr p) w with
  | (Ret _, w') => w' = with_slots (delete p) w /\ slots w' !! p = None
  | (Raise e, w') =>
      w' = w /\ is_OSError e = false /\ is_JSONDecodeError e = false /\
      slots w !! p <> None
  end.
Proof.
  pose proof (read_signal_cases p w) as Hcases.
  destruct (read_signal (JStr p) w) as [[data|e] w']; [|exact Hcases].
  split; [exact Hcases|]. subst w'. apply lookup_delete_eq.
Qed.

(** X13. For two identifiers [p] and [q] that are path components and
    differ, writing, taking or clearing the slot of [p] leaves the slot
    of [q] as it is. *)
Theorem mailbox_slots_independent `{Runtime} (p q : string) (data : json)
  (w : world) :
  path_component p = true ->
  path_component q = true ->
  p <> q ->
  slots (snd (write_signal (JStr p) data w)) !! q = slots w !! q /\
  slots (snd (read_signal (JStr p) w)) !! q = slots w !! q /\
  slots (snd (timed_out p w)) !! q = slots w !! q.
Proof.
  intros _ _ Hne. split; [|split].
  - rewrite write_signal_run. simpl. by apply lookup_insert_ne.
  - pose proof (read_signal_cases p w) as Hcases.
    destruct (read_signal (JStr p) w) as [[data'|e] w']; simpl.
    + subst w'. simpl. by apply lookup_delete_ne.
    + by destruct Hcases as [-> _].
  - unfold timed_out, bind, try_except, unlink, ret.
    destruct (slots w !! p); simpl; [by apply lookup_delete_ne | reflexivity].
Qed.

(** X14. What a poll of the watcher does with the slot of its profile,
    when the content decodes and parses: for a dict it takes the slot and
    sends one event, [open-url] with the URL when the dict has a truthy
    [url] and [activate] otherwise; for [null] it takes the slot and sends
    nothing; for any other value it takes the slot and raises
    [AttributeError].  Without a slot it does nothing. *)
Theorem signal_watcher_poll_relays `{Runtime} (p : string) (w : world) :
  (slots w !! p = None -> signal_watcher_poll (JStr p) w = (Ret tt, w)) /\
  (forall (content : string) (document : text) (data : json),
      slots w !! p = Some content ->
      decode_utf8 content = Ret document ->
      json_loads document = Ret data ->
      signal_watcher_poll (JStr p) w =
        match data with
        | JNull => (Ret tt, with_slots (delete p) w)
        | JObj payload =>
            (Ret tt,
             with_stdout (stdout w ++ [relayed_event payload])
               (with_slots (delete p) w))
        | _ => (Raise AttributeError, with_slots (delete p) w)
        end).
Proof.
  split.
  - intros Hp. unfold signal_watcher_poll, bind. by rewrite read_signal_absent.
  - intros content document data Hp Hdecode Hloads.
    unfold signal_watcher_poll, bind.
    rewrite (read_signal_present p content document data w Hp Hdecode Hloads).
    destruct data as [| | | | |payload]; try reflexivity.
    unfold lift, py_get, relayed_event. fold (field payload "url").
    by destruct (py_truthy (field payload "url")).
Qed.

(** ** Waiting, further *)

Section WaitMore.
Context `{Runtime}.

Lemma timed_out_world (name : string) (w : world) :
  timed_out name w = (Ret false, with_slots (delete name) w).
Proof.
  unfold timed_out, bind, try_except, unlink, ret.
  destruct (slots w !! name) eqn:Es; simpl; [reflexivity|].
  by rewrite with_slots_delete_absent.
Qed.

Lemma wait_loop_post (fuel : nat) (name : string) (deadline : Z)
  (w w' : world) (b : bool) :
  deadline - clock w <= 100 * Z.of_nat fuel ->
  wait_loop fuel name deadline w = (Ret b, w') ->
  slots w' !! name = None /\ clock w <= clock w' /\
  if b then clock w' < deadline else deadline <= clock w'.
Proof.
  revert w. induction fuel as [|fuel IH]; intros w Hfuel.
  - assert (Hlate : (clock w <? deadline) = false) by lia.
    simpl. unfold bind at 1, monotonic. rewrite Hlate, timed_out_world.
    intros [= <- <-]. simpl. split; [apply lookup_delete_eq|]. lia.
  - simpl. unfold bind at 1, monotonic.
    destruct (clock w <? deadline) eqn:Hnow.
    + unfold bind at 1, path_exists.
      destruct (slots w !! name) eqn:Es; simpl.
      * unfold bind at 1.
        pose proof (sleep_clock 100 w) as Hclock.
        destruct (sleep 100 w) as [[[]|e] w1]; [|discriminate].
        simpl in Hclock. intros Hrun.
        apply IH in Hrun as (Hgone & Hmono & Hb); [|lia].
        split; [exact Hgone|]. split; [lia | exact Hb].
      * unfold ret. intros [= <- <-]. split; [exact Es|]. lia.
    + rewrite timed_out_world. intros [= <- <-]. simpl.
      split; [apply lookup_delete_eq|]. lia.
Qed.

Lemma wait_for_signal_consumed_post (p : string) (timeout : Z) (w w' : world)
  (b : bool) :
  wait_for_signal_consumed (JStr p) timeout w = (Ret b, w') ->
  slots w' !! p = None /\ clock w <= clock w' /\
  if b then clock w' < clock w + timeout else clock w + timeout <= clock w'.
Proof.
  unfold wait_for_signal_consumed, bind, signal_path, ret, monotonic.
  apply wait_loop_post.
  pose proof (Z.mod_pos_bound timeout 100 ltac:(lia)).
  pose proof (Z.div_mod timeout 100 ltac:(lia)). lia.
Qed.

Lemma wait_for_signal_consumed_returns (p : string) (timeout : Z) (w : world) :
  exists (b : bool) (w' : world),
    wait_for_signal_consumed (JStr p) timeout w = (Ret b, w').
Proof.
  destruct (wait_loop_spec (Z.to_nat (timeout / 100 + 1)) p (clock w + timeout) w)
    as (b & w' & Hrun & _); [|by exists b, w'].
  pose proof (Z.mod_pos_bound timeout 100 ltac:(lia)).
  pose proof (Z.div_mod timeout 100 ltac:(lia)). lia.
Qed.
End WaitMore.

(** X15. [wait_for_signal_consumed] returns with the slot absent,
    whatever it returns; the clock never goes back; it returns [True]
    while the clock still reads less than the deadline and [False] only
    once the deadline is reached. *)
Theorem wait_for_signal_consumed_on_return `{Runtime} (p : string) (timeout : Z)
  (w : world) :
  exists (b : bool) (w' : world),
    wait_for_signal_consumed (JStr p) timeout w = (Ret b, w') /\
    slots w' !! p = None /\
    clock w <= clock w' /\
    if b then clock w' < clock w + timeout else clock w + timeout <= clock w'.
Proof.
  destruct (wait_for_signal_consumed_returns p timeout w) as (b & w' & Hrun).
  exists b, w'. split; [exact Hrun|].
  by apply wait_for_signal_consumed_post.
Qed.

(** X16. The two ends of the wait, for an identifier [p] that is a path
    component: with a time-out of zero or less it does not poll at all,
    removes the slot and returns [False] at once, even if there was no
    slot; with a positive time-out and no slot on entry it returns [True]
    at once and changes nothing. *)
Theorem wait_for_signal_consumed_at_once `{Runtime} (p : string) (timeout : Z)
  (w : world) :
  path_component p = true ->
  (timeout <= 0 ->
   wait_for_signal_consumed (JStr p) timeout w
     = (Ret false, with_slots (delete p) w)) /\
  (0 < timeout -> slots w !! p = None ->
   wait_for_signal_consumed (JStr p) timeout w = (Ret true, w)).
Proof.
  intros _.
  unfold wait_for_signal_consumed, bind, signal_path, ret, monotonic. split.
  - intros Hzero.
    assert (Hlate : (clock w <? clock w + timeout) = false) by lia.
    destruct (Z.to_nat (timeout / 100 + 1)); simpl;
      unfold bind at 1, monotonic; rewrite Hlate; apply timed_out_world.
  - intros Hpos Hp.
    assert (Hnow : (clock w <? clock w + timeout) = true) by lia.
    destruct (Z.to_nat (timeout / 100 + 1)); simpl;
      unfold bind, monotonic, path_exists, ret; by rewrite Hnow, Hp.
Qed.

(** ** Activation, further *)

Section ActivationMore.
Context `{Runtime}.

Lemma activation_clears (p : string) (data : json) (args : list json)
  (r : json) (w w' : world) :
  activation (JStr p) data args w = (Ret r, w') -> slots w' !! p = None.
Proof.
  unfold activation. unfold bind at 1.
  destruct (activate_chrome w) as [[[]|e] w0]; [|discriminate].
  unfold bind at 1. rewrite write_signal_run.
  unfold bind at 1.
  destruct (wait_for_signal_consumed (JStr p) 2000 _) as [[consumed|e] w2] eqn:Hwait;
    [|discriminate].
  apply wait_for_signal_consumed_post in Hwait as (Hgone & _).
  destruct consumed.
  - unfold ret. by intros [= _ <-].
  - intros Hlaunch.
    pose proof (keeps_launched slots (Popen args)
                  (keeps_Popen slots ltac:(done) args) w2) as Hkeep.
    rewrite Hlaunch in Hkeep. simpl in Hkeep. by rewrite Hkeep.
Qed.

Lemma activation_not_str (profile_dir data : json) (args : list json)
  (w : world) :
  hd None (popen_faults w) = None ->
  (forall p, profile_dir <> JStr p) ->
  activation profile_dir data args w
    = (Raise TypeError, with_signal_dir true (after_osascript w)).
Proof.
  intros Hok Hp. unfold activation. unfold bind at 1.
  rewrite activate_chrome_run by exact Hok.
  unfold bind at 1, write_signal, mkdir_exist_ok. unfold bind at 1.
  unfold bind at 1, signal_path.
  destruct profile_dir; try reflexivity. by destruct (Hp s).
Qed.
End ActivationMore.

(** X17. An activation that returns leaves no signal for its target
    behind: whether the signal was taken, or the wait timed out and Chrome
    was launched or failed to launch, the slot of the target is empty. *)
Theorem activation_leaves_no_signal `{Runtime} (p : string) (url r : json)
  (w w' : world) :
  (switch_profile (JStr p) w = (Ret r, w') -> slots w' !! p = None) /\
  (open_url_in_profile (JStr p) url w = (Ret r, w') -> slots w' !! p = None).
Proof.
  rewrite switch_profile_activation, open_url_in_profile_activation.
  split; apply activation_clears.
Qed.

(** X18. When [osascript] cannot be started, [switch_profile] and
    [open_url_in_profile] raise the [OSError] of that start: nothing is
    written for the target and Chrome is not launched.  When [osascript]
    starts and the target is not a string, they raise [TypeError] after
    having created the signal directory, again without a signal and
    without a launch. *)
Theorem activation_raises `{Runtime} (profile_dir url : json) (w : world) :
  (forall reason : string,
      hd None (popen_faults w) = Some reason ->
      switch_profile profile_dir w
        = (Raise (OSError reason), after_osascript_failed w) /\
      open_url_in_profile profile_dir url w
        = (Raise (OSError reason), after_osascript_failed w)) /\
  (hd None (popen_faults w) = None ->
   (forall p, profile_dir <> JStr p) ->
   switch_profile profile_dir w
     = (Raise TypeError, with_signal_dir true (after_osascript w)) /\
   open_url_in_profile profile_dir url w
     = (Raise TypeError, with_signal_dir true (after_osascript w))).
Proof.
  rewrite switch_profile_activation, open_url_in_profile_activation. split.
  - intros reason Hfault. split; by apply activation_fails.
  - intros Hok Hp. split; by apply activation_not_str.
Qed.

Lemma argv_of_unlaunchable (p : string) (url : json) (e : exn) :
  has_char "000" p = false ->
  launch_error url = Some e ->
  argv_of [JStr CHROME_BIN; JStr ("--profile-directory=" +:+ p); url] = Raise e.
Proof.
  intros Hp Hurl. cbn [argv_of].
  change (has_char "000" CHROME_BIN) with false.
  rewrite has_char_append, Hp.
  change (has_char "000" "--profile-directory=" || false) with false.
  cbv iota. unfold launch_error in Hurl.
  destruct url as [| | |s| |]; try (by injection Hurl as <-).
  destruct (has_char "000" s); [by injection Hurl as <- | discriminate].
Qed.

(** X19. [open_url_in_profile] for a target [p] that is a path component
    and a URL that [subprocess.Popen] cannot take, because it is not a
    string ([TypeError]) or holds a NUL character ([ValueError]): the URL
    is written into the signal as it is, and the call returns
    [method: signal] when the signal is taken; when the wait times out,
    the launch raises that exception, which the [except OSError] does not
    catch, and no process is started. *)
Theorem open_url_in_profile_unlaunchable_url `{Runtime} (p : string) (url : json)
  (e : exn) (w : world) :
  path_component p = true ->
  hd None (popen_faults w) = None ->
  launch_error url = Some e ->
  exists (consumed : bool) (w2 : world),
    wait_for_signal_consumed (JStr p) 2000
      (signalled p (JObj [("url", url)]) w) = (Ret consumed, w2) /\
    open_url_in_profile (JStr p) url w
      = (if consumed then Ret by_signal else Raise e, w2) /\
    spawned w2 = spawned w ++ [activate_argv].
Proof.
  intros Hp Hok Hurl. apply path_component_nul in Hp.
  destruct (activation_run p (JObj [("url", url)])
              [JStr CHROME_BIN; JStr ("--profile-directory=" +:+ p); url] w Hok)
    as (consumed & w2 & Hwait & _ & Hspawned & _ & _ & Hrun).
  exists consumed, w2. split; [exact Hwait|]. split; [|exact Hspawned].
  rewrite open_url_in_profile_activation.
  change (py_format (JStr p)) with p. rewrite Hrun.
  destruct consumed; [reflexivity|].
  by rewrite launched_run, (argv_of_unlaunchable p url e Hp Hurl).
Qed.

(** ** Dispatch loop, further *)

Lemma py_eq_str (x : json) (a : string) : py_eq x (JStr a) = true -> x = JStr a.
Proof.
  destruct x as [|b|z|s|l|d]; simpl; try discriminate;
    try (destruct b; discriminate); try (destruct l; discriminate).
  intros Heq. apply String.eqb_eq in Heq. by subst.
Qed.

Lemma py_eq_not_str (x : json) (a : string) :
  x <> JStr a -> py_eq x (JStr a) = false.
Proof.
  intros Hx. destruct (py_eq x (JStr a)) eqn:E; [|reflexivity].
  by apply py_eq_str in E.
Qed.

Section DispatchMore.
Context `{Runtime}.

End DispatchMore.

(** X20. A request whose [action] is none of the four known ones, or is
    missing, changes nothing and is answered with
    [error: Unknown action: <action>], the action formatted as by an
    f-string ([None] when missing); the loop goes on. *)
Theorem unknown_action_answered `{Runtime} (d : list (string * json))
  (watcher_started : bool) (w : world) :
  (forall a : string, In a known_actions -> field d "action" <> JStr a) ->
  main_iteration (JObj d) watcher_started w =
    (Ret watcher_started,
     with_stdout
       (stdout w ++
        [with_id (field d "id")
           [("error", JStr ("Unknown action: " +:+ py_format (field d "action")))]])
       w) /\
  (dict_get d "action" = None ->
   py_format (field d "action") = "None").
Proof.
  intros Hunknown. split.
  - pose proof (main_iteration_run d watcher_started w) as Hrun.
    unfold dispatch in Hrun.
    rewrite !py_eq_not_str in Hrun by (apply Hunknown; simpl; tauto).
    exact Hrun.
  - unfold field. by intros ->.
Qed.


(** ** The further properties on the example machines *)

Section FurtherExamples.
#[local] Existing Instance Reference.runtime.

Lemma read_message_send_message_witness :
  read_message (frame_of (JObj register_a) +:+ "rest")
    = Message (JObj register_a) "rest".
Proof.
  apply (@read_message_send_message Reference.runtime dumps_compact (JObj register_a)
           (frame_of (JObj register_a)) "rest").
  - vm_compute. reflexivity.
  - split; vm_compute; reflexivity.
Defined.

Lemma main_bytes_frames_witness :
  main_bytes 3 (concat_bytes (map frame_of two_registrations)) false quiet_world
    = main_loop two_registrations false quiet_world.
Proof.
  apply (@main_bytes_frames Reference.runtime dumps_compact two_registrations
           (map frame_of two_registrations) 3 false quiet_world).
  - constructor; [|constructor; [|constructor]];
      (split; [|split]); vm_compute; reflexivity.
  - simpl. lia.
Defined.

Lemma read_message_truncated_witness :
  read_message (header_of 10 +:+ "{}") = SystemExit 0 /\
  main_bytes 1 (header_of 10 +:+ "{}") false quiet_world = (0, quiet_world).
Proof.
  apply (read_message_truncated (header_of 10 +:+ "{}") 0 false quiet_world).
  right. exists (header_of 10), "{}", 10.
  split; [reflexivity|]. split; [reflexivity|]. simpl. lia.
Defined.

Lemma read_message_garbage_witness :
  exists e : exn,
    read_message (header_of 1 +:+ String "255"%char EmptyString +:+ "rest")
      = Uncaught e /\
    main_bytes 1 (header_of 1 +:+ String "255"%char EmptyString +:+ "rest")
      false quiet_world = (1, quiet_world).
Proof.
  eexists.
  apply (read_message_garbage (header_of 1) (String "255"%char EmptyString) "rest"
           _ 0 false quiet_world); vm_compute; reflexivity.
Defined.

Lemma registry_world_is (info_cache : list (string * json)) :
  fst (read_local_state (registry_world info_cache))
    = Ret (JObj [("profile", JObj [("info_cache", JObj info_cache)])]) ->
  registry_is (registry_world info_cache) (JObj info_cache).
Proof.
  intros Hread.
  exists (JObj [("profile", JObj [("info_cache", JObj info_cache)])]),
    (JObj [("info_cache", JObj info_cache)]).
  split; [exact Hread|]. split; reflexivity.
Qed.

Lemma get_profiles_read_only_witness :
  snd (get_profiles JNull (registry_world four_profiles))
    = registry_world four_profiles /\
  match main_iteration (JObj get_profiles_request) false
          (registry_world four_profiles) with
  | (Ret started, w') =>
      started = false /\
      exists result : list (string * json),
        fst (get_profiles (field get_profiles_request "currentEmail")
               (registry_world four_profiles)) = Ret (JObj result) /\
        w' = with_stdout
               (stdout (registry_world four_profiles)
                ++ [with_id (field get_profiles_request "id") result])
               (registry_world four_profiles)
  | (Raise e, w') =>
      w' = registry_world four_profiles /\
      fst (get_profiles (field get_profiles_request "currentEmail")
             (registry_world four_profiles)) = Raise e
  end.
Proof.
  destruct (get_profiles_read_only JNull get_profiles_request false
              (registry_world four_profiles)) as [Hsame Hrequest].
  split; [exact Hsame|]. apply Hrequest. reflexivity.
Defined.

Lemma get_profiles_errors_witness :
  get_profiles JNull quiet_world =
    (Ret (JObj [("error",
                 JStr ("Failed to read Local State: "
                       +:+ "[Errno 2] No such file or directory"))]),
     quiet_world) /\
  (exists reason : string,
      get_profiles JNull (registry_file_world (Ret "{")) =
        (Ret (JObj [("error", JStr ("Failed to read Local State: " +:+ reason))]),
         registry_file_world (Ret "{"))) /\
  get_profiles JNull (registry_world []) =
    (Ret (JObj [("error", JStr "No profiles found in Local State")]),
     registry_world []) /\
  get_profiles JNull (registry_file_world (Ret "{}")) =
    (Ret (JObj [("error", JStr "No profiles found in Local State")]),
     registry_file_world (Ret "{}")) /\
  (exists reason : string,
      get_profiles JNull (registry_file_world (Ret (String "255"%char EmptyString))) =
        (Raise (UnicodeDecodeError reason),
         registry_file_world (Ret (String "255"%char EmptyString)))).
Proof.
  split; [|split; [|split; [|split]]].
  - apply (get_profiles_errors JNull quiet_world). reflexivity.
  - eexists.
    eapply (proj1 (proj2 (get_profiles_errors JNull (registry_file_world (Ret "{")))));
      [reflexivity | vm_compute; reflexivity | vm_compute; reflexivity].
  - apply (proj1 (proj2 (proj2 (get_profiles_errors JNull (registry_world []))))
             (JObj []));
      [apply registry_world_is; vm_compute; reflexivity | reflexivity].
  - apply (proj1 (proj2 (proj2 (proj2
             (get_profiles_errors JNull (registry_file_world (Ret "{}"))))))
             []); vm_compute; reflexivity.
  - eexists.
    eapply (proj2 (proj2 (proj2 (proj2
              (get_profiles_errors JNull
                 (registry_file_world (Ret (String "255"%char EmptyString))))))));
      [reflexivity | vm_compute; reflexivity].
Defined.

Lemma get_profiles_lists_witness :
  (exists (ps : list json) (current_index : json),
      get_profiles JNull (registry_world four_profiles) =
        (Ret (JObj [("profiles", JArr ps); ("currentIndex", current_index)]),
         registry_world four_profiles) /\
      List.length ps = List.length four_profiles) /\
  (fst (get_profiles JNull (registry_world broken_entry)) = Raise AttributeError \/
   fst (get_profiles JNull (registry_world broken_entry)) = Raise TypeError).
Proof.
  split.
  - refine (get_profiles_lists JNull (registry_world four_profiles) four_profiles
              _ _ _).
    + apply registry_world_is. vm_compute. reflexivity.
    + discriminate.
    + repeat constructor; simpl; intuition discriminate.
  - refine (get_profiles_lists JNull (registry_world broken_entry) broken_entry
              _ _ _).
    + apply registry_world_is. vm_compute. reflexivity.
    + discriminate.
    + repeat constructor; simpl; intuition discriminate.
Defined.

Lemma get_profiles_records_witness :
  Forall2 (is_record (registry_world four_profiles) four_profiles)
    (sorted profile_sort_key (map fst four_profiles)) four_profiles_listed /\
  List.length four_profiles_listed = List.length four_profiles.
Proof.
  apply (get_profiles_records JNull (registry_world four_profiles)
           (registry_world four_profiles) four_profiles four_profiles_result
           four_profiles_listed).
  - apply registry_world_is. vm_compute. reflexivity.
  - vm_compute. reflexivity.
  - reflexivity.
Defined.

Lemma get_profiles_current_index_witness :
  exists ps : list json,
    fst (get_profiles (JStr "b@example.org") (registry_world two_accounts))
      = Ret (JObj [("profiles", JArr ps); ("currentIndex", JInt 1)]) /\
    last_match (JStr "b@example.org") ps 0 JNull (JInt 1) /\
    (py_truthy (JStr "b@example.org") = false -> JInt 1 = JNull).
Proof.
  eexists. split; [vm_compute; reflexivity|].
  eapply (get_profiles_current_index (JStr "b@example.org")
            (registry_world two_accounts) (registry_world two_accounts)).
  - vm_compute. reflexivity.
  - reflexivity.
  - reflexivity.
Defined.

Lemma mailbox_slots_independent_witness :
  slots (snd (write_signal (JStr "Profile 2") JNull late_take_world)) !! "Profile 1"
    = slots late_take_world !! "Profile 1" /\
  slots (snd (read_signal (JStr "Profile 2") late_take_world)) !! "Profile 1"
    = slots late_take_world !! "Profile 1" /\
  slots (snd (timed_out "Profile 2" late_take_world)) !! "Profile 1"
    = slots late_take_world !! "Profile 1".
Proof.
  apply (mailbox_slots_independent "Profile 2" "Profile 1" JNull late_take_world);
    [reflexivity | reflexivity | discriminate].
Defined.

Lemma signal_watcher_poll_relays_witness :
  signal_watcher_poll (JStr "Profile 1") quiet_world = (Ret tt, quiet_world) /\
  signal_watcher_poll (JStr "Profile 1") late_take_world =
    (Ret tt,
     with_stdout (stdout late_take_world ++ [JObj [("action", JStr "activate")]])
       (with_slots (delete "Profile 1") late_take_world)).
Proof.
  split.
  - apply (proj1 (signal_watcher_poll_relays "Profile 1" quiet_world)).
    reflexivity.
  - refine (proj2 (signal_watcher_poll_relays "Profile 1" late_take_world)
              "{}" "{}" (JObj []) _ _ _); vm_compute; reflexivity.
Defined.

Lemma wait_for_signal_consumed_at_once_witness :
  wait_for_signal_consumed (JStr "Profile 1") 0 late_take_world
    = (Ret false, with_slots (delete "Profile 1") late_take_world) /\
  wait_for_signal_consumed (JStr "Profile 1") 2000 quiet_world
    = (Ret true, quiet_world).
Proof.
  split.
  - apply (proj1 (wait_for_signal_consumed_at_once "Profile 1" 0 late_take_world
                    eq_refl)).
    lia.
  - apply (proj2 (wait_for_signal_consumed_at_once "Profile 1" 2000 quiet_world
                    eq_refl));
      [lia | reflexivity].
Defined.

Lemma activation_leaves_no_signal_witness :
  fst (switch_profile (JStr "Profile 1") quiet_world) = Ret by_launch /\
  slots (snd (switch_profile (JStr "Profile 1") quiet_world)) !! "Profile 1" = None.
Proof.
  split; [vm_compute; reflexivity|].
  apply (proj1 (activation_leaves_no_signal "Profile 1" JNull by_launch quiet_world
                  (snd (switch_profile (JStr "Profile 1") quiet_world)))).
  vm_compute. reflexivity.
Defined.

Lemma activation_raises_witness :
  (switch_profile (JStr "Profile 1") faulty_world
     = (Raise (OSError "[Errno 2] No such file or directory: 'osascript'"),
        after_osascript_failed faulty_world) /\
   open_url_in_profile (JStr "Profile 1") (JStr "https://example.org/") faulty_world
     = (Raise (OSError "[Errno 2] No such file or directory: 'osascript'"),
        after_osascript_failed faulty_world)) /\
  (switch_profile JNull quiet_world
     = (Raise TypeError, with_signal_dir true (after_osascript quiet_world)) /\
   open_url_in_profile JNull (JStr "https://example.org/") quiet_world
     = (Raise TypeError, with_signal_dir true (after_osascript quiet_world))).
Proof.
  split.
  - apply (proj1 (activation_raises (JStr "Profile 1") (JStr "https://example.org/")
                    faulty_world)).
    reflexivity.
  - apply (proj2 (activation_raises JNull (JStr "https://example.org/") quiet_world));
      [reflexivity | discriminate].
Defined.

Lemma open_url_in_profile_unlaunchable_url_witness :
  (exists (consumed : bool) (w2 : world),
      wait_for_signal_consumed (JStr "Profile 1") 2000
        (signalled "Profile 1" (JObj [("url", JInt 5)]) quiet_world)
        = (Ret consumed, w2) /\
      open_url_in_profile (JStr "Profile 1") (JInt 5) quiet_world
        = (if consumed then Ret by_signal else Raise TypeError, w2) /\
      spawned w2 = spawned quiet_world ++ [activate_argv]) /\
  (exists (consumed : bool) (w2 : world),
      wait_for_signal_consumed (JStr "Profile 1") 2000
        (signalled "Profile 1" (JObj [("url", JStr nul_url)]) quiet_world)
        = (Ret consumed, w2) /\
      open_url_in_profile (JStr "Profile 1") (JStr nul_url) quiet_world
        = (if consumed then Ret by_signal else Raise ValueError, w2) /\
      spawned w2 = spawned quiet_world ++ [activate_argv]).
Proof.
  split.
  - apply (open_url_in_profile_unlaunchable_url "Profile 1" (JInt 5) TypeError
             quiet_world); reflexivity.
  - apply (open_url_in_profile_unlaunchable_url "Profile 1" (JStr nul_url)
             ValueError quiet_world); reflexivity.
Defined.

Lemma unknown_action_answered_witness :
  main_iteration (JObj bare_request) false quiet_world =
    (Ret false,
     with_stdout
       (stdout quiet_world ++
        [with_id (field bare_request "id")
           [("error",
             JStr ("Unknown action: " +:+ py_format (field bare_request "action")))]])
       quiet_world) /\
  py_format (field bare_request "action") = "None".
Proof.
  destruct (unknown_action_answered bare_request false quiet_world) as [Hrun Hnone].
  - intros a _. discriminate.
  - split; [exact Hrun|]. apply Hnone. reflexivity.
Defined.
End FurtherExamples.
